(** * trybase-twitter: pagination, filters and routing of the generated REST API

    A shallow embedding of the query-parameter processor
    (api/validations/likes.ts, api/validations/followers.ts), of the
    list, get-by-id and search handlers of the entity routers
    (api/routes/hashtags.ts, comments, posts, likes) and of the order in
    which each router registers its routes, with the properties the
    specification states about them. *)

From Stdlib Require Import ZArith Lia Ascii String.
From Stdlib Require DecimalString DecimalPos.
From stdpp Require Import gmap strings list fin_maps.

Local Open Scope string_scope.
Local Open Scope Z_scope.

(** ** JavaScript numbers

    Every number the handlers compute is an integer, an infinity or NaN:
    the sources are [parseInt], literals and the count of the storage,
    combined by [+], [-], [*], [Math.min], [Math.max] and by [Math.floor]
    and [Math.ceil] of a quotient. A number is an IEEE-754 double, so an
    integer result is rounded to the nearest double (ties to even) and
    becomes an infinity from 2^1024 on; integers below 2^53 in absolute
    value are exact. The two zeros are not told apart: no operation
    modelled here separates them. *)
Module Number.

Inductive number : Type :=
  | Fin (z : Z)
  | PosInf
  | NegInf
  | NaN.

Definition MAX_SAFE : Z := 2 ^ 53.

(** [n / d] rounded to the nearest integer, ties to the even one
    ([d] positive). *)
Definition round_half_even (n d : Z) : Z :=
  let m := n / d in
  let r := n mod d in
  if 2 * r <? d then m
  else if d <? 2 * r then m + 1
  else if Z.even m then m else m + 1.

(** The double nearest to the integer [z]: 53 significant bits. *)
Definition to_double (z : Z) : number :=
  let a := Z.abs z in
  if a <? MAX_SAFE then Fin z
  else
    let e := Z.log2 a - 52 in
    let v := round_half_even a (2 ^ e) * 2 ^ e in
    if 2 ^ 1024 <=? v then (if z <? 0 then NegInf else PosInf)
    else Fin (Z.sgn z * v).

(** [a - b] *)
Definition num_sub (a b : number) : number :=
  match a, b with
  | NaN, _ | _, NaN => NaN
  | Fin x, Fin y => to_double (x - y)
  | PosInf, PosInf | NegInf, NegInf => NaN
  | PosInf, _ | _, NegInf => PosInf
  | NegInf, _ | _, PosInf => NegInf
  end.

(** [a + b] *)
Definition num_add (a b : number) : number :=
  match a, b with
  | NaN, _ | _, NaN => NaN
  | Fin x, Fin y => to_double (x + y)
  | PosInf, NegInf | NegInf, PosInf => NaN
  | PosInf, _ | _, PosInf => PosInf
  | NegInf, _ | _, NegInf => NegInf
  end.

(** [a * b] *)
Definition num_mul (a b : number) : number :=
  let inf_times (positive : bool) (y : number) : number :=
    match y with
    | NaN => NaN
    | Fin 0 => NaN
    | Fin (Zpos _) | PosInf => if positive then PosInf else NegInf
    | Fin (Zneg _) | NegInf => if positive then NegInf else PosInf
    end in
  match a, b with
  | NaN, _ | _, NaN => NaN
  | Fin x, Fin y => to_double (x * y)
  | PosInf, y => inf_times true y
  | NegInf, y => inf_times false y
  | x, PosInf => inf_times true x
  | x, NegInf => inf_times false x
  end.

(** [a < b]; a comparison with NaN is false. *)
Definition num_lt (a b : number) : bool :=
  match a, b with
  | NaN, _ | _, NaN => false
  | Fin x, Fin y => x <? y
  | NegInf, NegInf | PosInf, _ => false
  | NegInf, _ => true
  | Fin _, PosInf => true
  | Fin _, NegInf => false
  end.

(** [a > b] *)
Definition num_gt (a b : number) : bool := num_lt b a.

(** [a <= b]; a comparison with NaN is false. *)
Definition num_le (a b : number) : bool :=
  match a, b with
  | NaN, _ | _, NaN => false
  | _, _ => negb (num_lt b a)
  end.

(** ToBoolean on a number: 0 and NaN are falsy. *)
Definition truthy (a : number) : bool :=
  match a with
  | Fin 0 | NaN => false
  | _ => true
  end.

(** [Math.max(a, b)] and [Math.min(a, b)]: NaN when an argument is. *)
Definition Math_max (a b : number) : number :=
  match a, b with
  | NaN, _ | _, NaN => NaN
  | _, _ => if num_lt a b then b else a
  end.

Definition Math_min (a b : number) : number :=
  match a, b with
  | NaN, _ | _, NaN => NaN
  | _, _ => if num_lt b a then b else a
  end.

(** [Number.isInteger] *)
Definition isInteger (a : number) : bool :=
  match a with
  | Fin _ => true
  | _ => false
  end.

(** A quotient [a / b] need not be an integer; it is only ever passed
    to [Math.floor] or [Math.ceil]. It is the double [m * 2^k] nearest
    to the exact quotient, an infinity or NaN. *)
Inductive quotient : Type :=
  | Dyadic (m k : Z)
  | QPosInf
  | QNegInf
  | QNaN.

(** The exponent of [a / b] for positive [a] and [b]: the [e] with
    [2^e <= a / b < 2^(e + 1)]. *)
Definition exponent_of_ratio (a b : Z) : Z :=
  let e := Z.log2 a - Z.log2 b in
  if b * 2 ^ Z.max e 0 <=? a * 2 ^ Z.max (- e) 0 then e else e - 1.

(** The double nearest to [a / b] for positive [a] and [b]: 53
    significant bits, fewer below 2^-1022 (the least unit is 2^-1074). *)
Definition nearest_ratio (a b : Z) : quotient :=
  let e := exponent_of_ratio a b in
  let k := Z.max (e - 52) (-1074) in
  let m := round_half_even (a * 2 ^ Z.max (- k) 0) (b * 2 ^ Z.max k 0) in
  if 2 ^ 1024 <=? m * 2 ^ Z.max k 0 then QPosInf else Dyadic m k.

Definition negate (q : quotient) : quotient :=
  match q with
  | Dyadic m k => Dyadic (- m) k
  | QPosInf => QNegInf
  | QNegInf => QPosInf
  | QNaN => QNaN
  end.

(** [a / b] *)
Definition num_div (a b : number) : quotient :=
  match a, b with
  | NaN, _ | _, NaN => QNaN
  | Fin x, Fin 0 =>
      if 0 <? x then QPosInf else if x <? 0 then QNegInf else QNaN
  | Fin 0, Fin _ => Dyadic 0 0
  | Fin x, Fin y =>
      let q := nearest_ratio (Z.abs x) (Z.abs y) in
      if 0 <? x * y then q else negate q
  | Fin _, _ => Dyadic 0 0
  | _, Fin y => match a, (0 <=? y) with
                | PosInf, true | NegInf, false => QPosInf
                | _, _ => QNegInf
                end
  | _, _ => QNaN
  end.

(** [Math.floor] and [Math.ceil]; the floor of a double is a double. *)
Definition Math_floor (q : quotient) : number :=
  match q with
  | Dyadic m k => Fin (m * 2 ^ Z.max k 0 / 2 ^ Z.max (- k) 0)
  | QPosInf => PosInf
  | QNegInf => NegInf
  | QNaN => NaN
  end.

Definition Math_ceil (q : quotient) : number :=
  match q with
  | Dyadic m k => Fin (- (- m * 2 ^ Z.max k 0 / 2 ^ Z.max (- k) 0))
  | QPosInf => PosInf
  | QNegInf => NegInf
  | QNaN => NaN
  end.

Declare Scope js_scope.
Delimit Scope js_scope with js.
Bind Scope js_scope with number.

Infix "+" := num_add : js_scope.
Infix "-" := num_sub : js_scope.
Infix "*" := num_mul : js_scope.
Infix "/" := num_div : js_scope.
Infix "<?" := num_lt : js_scope.
Infix ">?" := num_gt : js_scope.
Infix "<=?" := num_le : js_scope.

End Number.
Export Number.

(** ** Strings *)

(** JavaScript's ToBoolean on [string | undefined]: undefined and the
    empty string are falsy. *)
Definition truthy_string (s : option string) : bool :=
  match s with
  | None | Some "" => false
  | Some _ => true
  end.

(** The characters of a string are the bytes of its text in UTF-8. *)
Definition code (c : ascii) : Z := Z.of_N (N_of_ascii c).

(** [\d] *)
Definition is_digit (c : ascii) : bool := (48 <=? code c) && (code c <=? 57).

(** The white space [parseInt] and [BigInt] skip (WhiteSpace and
    LineTerminator). Of one byte: tab, line feed, vertical tab, form
    feed, carriage return, space. *)
Definition is_space (c : ascii) : bool :=
  ((9 <=? code c) && (code c <=? 13)) || (code c =? 32).

(** Of two bytes: the no-break space U+00A0 (C2 A0). *)
Definition is_space2 (c1 c2 : ascii) : bool :=
  (code c1 =? 194) && (code c2 =? 160).

(** Of three bytes: U+1680 (E1 9A 80); U+2000 to U+200A, U+2028,
    U+2029 and U+202F (E2 80 and 80 to 8A, A8, A9, AF); U+205F
    (E2 81 9F); U+3000 (E3 80 80); U+FEFF (EF BB BF). *)
Definition is_space3 (c1 c2 c3 : ascii) : bool :=
  ((code c1 =? 225) && (code c2 =? 154) && (code c3 =? 128))
  || ((code c1 =? 226) && (code c2 =? 128)
      && (((128 <=? code c3) && (code c3 <=? 138))
          || (code c3 =? 168) || (code c3 =? 169) || (code c3 =? 175)))
  || ((code c1 =? 226) && (code c2 =? 129) && (code c3 =? 159))
  || ((code c1 =? 227) && (code c2 =? 128) && (code c3 =? 128))
  || ((code c1 =? 239) && (code c2 =? 187) && (code c3 =? 191)).

(** Whether a string starts with a white space character. *)
Definition starts_with_space (s : string) : bool :=
  match s with
  | String c1 s1 =>
      is_space c1
      || match s1 with
         | String c2 s2 =>
             is_space2 c1 c2
             || match s2 with
                | String c3 _ => is_space3 c1 c2 c3
                | EmptyString => false
                end
         | EmptyString => false
         end
  | EmptyString => false
  end.

(** The string without the white space it starts with. *)
Fixpoint trim_start (s : string) : string :=
  match s with
  | String c1 s1 =>
      if is_space c1 then trim_start s1
      else match s1 with
           | String c2 s2 =>
               if is_space2 c1 c2 then trim_start s2
               else match s2 with
                    | String c3 s3 =>
                        if is_space3 c1 c2 c3 then trim_start s3 else s
                    | EmptyString => s
                    end
           | EmptyString => s
           end
  | EmptyString => s
  end.

(** White space only. *)
Fixpoint blank (s : string) : bool :=
  match s with
  | String c1 s1 =>
      if is_space c1 then blank s1
      else match s1 with
           | String c2 s2 =>
               if is_space2 c1 c2 then blank s2
               else match s2 with
                    | String c3 s3 => is_space3 c1 c2 c3 && blank s3
                    | EmptyString => false
                    end
           | EmptyString => false
           end
  | EmptyString => true
  end.

(** The value of the longest prefix of decimal digits, most significant
    first, with the number of digits read. *)
Fixpoint digits_prefix (acc : Z) (n : nat) (s : string) : Z * nat :=
  match s with
  | String c s' =>
      if is_digit c then digits_prefix (10 * acc + (code c - 48)) (S n) s'
      else (acc, n)
  | EmptyString => (acc, n)
  end.

(** The decimal value of a string of digits. *)
Definition decimal (s : string) : Z := (digits_prefix 0 0 s).1.

(** [parseInt(s, 10)]: white space, an optional sign, then digits up to
    the first character that is not one; NaN when there is no digit. *)
Definition parseInt (s : string) : number :=
  let s := trim_start s in
  let '(sign, s) :=
    match s with
    | String "-" s' => (-1, s')
    | String "+" s' => (1, s')
    | _ => (1, s)
    end in
  match digits_prefix 0 0 s with
  | (_, O) => NaN
  | (mathInt, _) => to_double (sign * mathInt)
  end.

(** [/^\d+$/.test(s)] *)
Fixpoint all_digits (s : string) : bool :=
  match s with
  | EmptyString => true
  | String c s' => is_digit c && all_digits s'
  end.

Definition digit_string (s : string) : bool :=
  match s with
  | EmptyString => false
  | _ => all_digits s
  end.


(** ** Validation layer (zod schemas, api/validations/likes.ts)

    The validation modules of the entities are one generated text: the
    two at hand, likes.ts and followers.ts, differ in the entity's name
    only. Their schemas and processor are embedded once. *)

(** What the validator middleware hands to a schema for one key of the
    query string: nothing, the value, or all values of a repeated key. *)
Inductive raw : Type :=
  | RUndefined
  | RString (s : string)
  | RArray (l : list string).

(** A decoded query string, in the order of the URL. *)
Definition query_string : Type := list (string * string).

(** [c.req.queries()] at one key. *)
Definition queries (qs : query_string) (k : string) : list string :=
  (filter (fun kv => kv.1 = k) qs).*2.

(** The validator's input object at one key: a key given once is its
    string, a repeated key the array of its values. *)
Definition query_value (qs : query_string) (k : string) : raw :=
  match queries qs k with
  | [] => RUndefined
  | [v] => RString v
  | vs => RArray vs
  end.

(** [z.string().optional()] *)
Definition z_string_optional (v : raw) : option (option string) :=
  match v with
  | RUndefined => Some None
  | RString s => Some (Some s)
  | RArray _ => None
  end.

(** [z.string().optional().refine(val => val === undefined || /^\d+$/.test(val))] *)
Definition z_digits_optional (v : raw) : option (option string) :=
  match z_string_optional v with
  | Some (Some s) => if digit_string s then Some (Some s) else None
  | r => r
  end.

(** [z.string({required_error, invalid_type_error}).min(1)] *)
Definition z_string_min1 (v : raw) : option string :=
  match v with
  | RString s => if (1 <=? Z.of_nat (String.length s)) then Some s else None
  | _ => None
  end.

(** [z.infer<typeof likesQuerySchema>] *)
Record ListQuery : Type := {
  page : option string;
  limit : option string;
  name : option string;
  description : option string;
}.

(** [likesQuerySchema.safeParse]: [None] when the parse fails. *)
Definition likesQuerySchema (qs : query_string) : option ListQuery :=
  p ← z_digits_optional (query_value qs "page");
  l ← z_digits_optional (query_value qs "limit");
  n ← z_string_optional (query_value qs "name");
  d ← z_string_optional (query_value qs "description");
  Some {| page := p; limit := l; name := n; description := d |}.

(** [z.infer<typeof likesSearchQuerySchema>] *)
Record SearchQuery : Type := {
  query : string;
  search_page : option string;
  search_limit : option string;
}.

(** [likesSearchQuerySchema.safeParse] *)
Definition likesSearchQuerySchema (qs : query_string) : option SearchQuery :=
  q ← z_string_min1 (query_value qs "query");
  p ← z_digits_optional (query_value qs "page");
  l ← z_digits_optional (query_value qs "limit");
  Some {| query := q; search_page := p; search_limit := l |}.

(** [likesIdParamSchema]: the path parameter is always a string. *)
Definition likesIdParamSchema (id : string) : option string := Some id.

(** [z.number().int().min(lo)] and [.max(hi)] when given; [z.number()]
    refuses NaN, [int()] refuses the infinities. *)
Definition z_number_int (lo : Z) (hi : option Z) (n : number) : bool :=
  match n with
  | Fin z => (lo <=? z) && from_option (fun h => z <=? h) true hi
  | _ => false
  end.

(** [.optional()] on a number schema. *)
Definition z_optional (check : number -> bool) (n : option number) : bool :=
  from_option check true n.

(** [internalQueryParamsSchema.safeParse(...).success]; [name] and
    [description] are [string | undefined] by type and always pass. *)
Definition internalQueryParamsSchema
    (skip take : number) (page limit : option number) : bool :=
  z_number_int 0 None skip
  && z_number_int 1 (Some 100) take
  && z_optional (z_number_int 1 None) page
  && z_optional (z_number_int 1 (Some 100)) limit.

(** ** Storage filters *)

(** A condition on a text column. *)
Inductive condition : Type :=
  | Contains (value mode : string)
  | StartsWith (value mode : string).

(** A value of a [where] object: a condition on a column, or the list
    of alternatives under [OR]. *)
Inductive where_value : Type :=
  | Cond (c : condition)
  | Or (alternatives : list (gmap string condition)).

(** [Record<string, any>] *)
Abbreviation where_clause := (gmap string where_value).

(** ** Query-parameter processor *)

Record ProcessedQueryParams : Type := {
  where_ : where_clause;
  skip : number;
  take : number;
}.

(** [field ? parseInt(field, 10) : undefined] (lines 76 and 77) *)
Definition parsed (field : option string) : option number :=
  if truthy_string field then parseInt <$> field else None.

(** [limit && limit > 0 && limit <= 100 ? limit : 10] (line 78) *)
Definition take_of (limit : option number) : number :=
  match limit with
  | Some limit =>
      if truthy limit && (limit >? Fin 0)%js && (limit <=? Fin 100)%js
      then limit else Fin 10
  | None => Fin 10
  end.

(** [page && page > 0 ? (page - 1) * take : 0] (line 79) *)
Definition skip_of (page : option number) (take : number) : number :=
  match page with
  | Some page =>
      if truthy page && (page >? Fin 0)%js
      then ((page - Fin 1) * take)%js else Fin 0
  | None => Fin 0
  end.

(** [processLikesQueryParams]; the message written to the console on
    the fall-back is not modelled. *)
Definition processLikesQueryParams (query : ListQuery) : ProcessedQueryParams :=
  let page := parsed query.(page) in
  let limit := parsed query.(limit) in
  let take := take_of limit in
  let skip := skip_of page take in
  let parseResult_success := internalQueryParamsSchema skip take page limit in
  if negb parseResult_success
  then {| where_ := ∅; skip := Fin 0; take := Fin 10 |}
  else
    let name := query.(name) in
    let description := query.(description) in
    let where_ : where_clause := ∅ in
    let where_ :=
      if truthy_string name
      then <["name" := Cond (Contains (default "" name) "insensitive")]> where_
      else where_ in
    let where_ :=
      if truthy_string description
      then <["description" :=
               Cond (Contains (default "" description) "insensitive")]> where_
      else where_ in
    {| where_ := where_; skip := skip; take := take |}.

(** [processFollowersQueryParams] (api/validations/followers.ts) is the
    same text. *)
Definition processFollowersQueryParams : ListQuery -> ProcessedQueryParams :=
  processLikesQueryParams.

(** Whether the re-validation of a query succeeds: [parseResult.success]
    (lines 82 to 89), on its own. *)
Definition parseResult_success (query : ListQuery) : bool :=
  let page := parsed query.(page) in
  let limit := parsed query.(limit) in
  let take := take_of limit in
  let skip := skip_of page take in
  internalQueryParamsSchema skip take page limit.

(** The result of the fall-back (line 94). *)
Definition fallback : ProcessedQueryParams :=
  {| where_ := ∅; skip := Fin 0; take := Fin 10 |}.

(** The filter built from the text filters when the re-validation
    succeeds (lines 98 to 105). *)
Definition filters_of (query : ListQuery) : where_clause :=
  let w : where_clause := ∅ in
  let w := if truthy_string query.(name)
           then <["name" := Cond (Contains (default "" query.(name)) "insensitive")]> w
           else w in
  if truthy_string query.(description)
  then <["description" :=
           Cond (Contains (default "" query.(description)) "insensitive")]> w
  else w.

(** ** Storage and responses *)

(** The routers at hand. *)
Inductive entity : Type := Posts | Likes | Comments | Hashtags.

Definition entity_name (e : entity) : string :=
  match e with
  | Posts => "posts"
  | Likes => "likes"
  | Comments => "comments"
  | Hashtags => "hashtags"
  end.

(** A stored record, column by column. *)
Abbreviation row := (gmap string string).

(** A value thrown by a storage call. *)
Record thrown : Type := {
  instanceof_Error : bool;
  message : string;
}.

(** How an awaited storage call ends. *)
Inductive outcome (A : Type) : Type :=
  | Resolved (a : A)
  | Rejected (err : thrown).
Arguments Resolved {A} a.
Arguments Rejected {A} err.

(** The storage layer (the ORM client), an external collaborator: what
    each call answers is left open. *)
Record storage : Type := {
  findMany : entity -> where_clause -> number -> number -> outcome (list row);
  count : entity -> where_clause -> outcome number;
  findUnique : entity -> string -> outcome (option row);
}.

(** A storage with no rows, a storage with 25 rows whatever the filter,
    and one whose every call throws [err]. *)
Definition empty_storage : storage :=
  {| findMany := fun _ _ _ _ => Resolved [];
     count := fun _ _ => Resolved (Fin 0);
     findUnique := fun _ _ => Resolved None |}.

Definition storage_of_25 : storage :=
  {| findMany := fun _ _ _ _ => Resolved [];
     count := fun _ _ => Resolved (Fin 25);
     findUnique := fun _ _ => Resolved None |}.

Definition failing_storage (err : thrown) : storage :=
  {| findMany := fun _ _ _ _ => Rejected err;
     count := fun _ _ => Rejected err;
     findUnique := fun _ _ => Rejected err |}.

(** The storage calls a handler issues, in order. *)
Inductive call : Type :=
  | FindMany (e : entity) (w : where_clause) (skip take : number)
  | Count (e : entity) (w : where_clause)
  | FindUnique (e : entity) (id : string).

Record meta : Type := {
  total : number;
  meta_skip : number;
  meta_take : number;
  meta_page : number;
  totalPages : number;
}.

Inductive body : Type :=
  | Envelope (data : list row) (m : meta)
  | Item (item : row)
  | Failure (error : string) (details : option string)
  | Invalid
  | Text (t : string).

Record response : Type := {
  status : Z;
  json : body;
}.

(** What a handler did: the storage calls it made and its response. *)
Abbreviation served := (list call * response)%type.

(** [error instanceof Error ? error.message : fallback] *)
Definition details_of (err : thrown) (fallback : string) : string :=
  if err.(instanceof_Error) then err.(message) else fallback.

(** [zValidator(target, schema)]: a failed parse is answered with 400
    and the handler is not run. *)
Definition zValidator {A : Type} (parsed : option A) (handler : A -> served) : served :=
  match parsed with
  | Some valid => handler valid
  | None => ([], {| status := 400; json := Invalid |})
  end.

(** [Promise.all([findMany, count])]: both calls are issued, and the
    pair is there when both resolve. When both reject, the rejection
    reported is the earlier one in time; [findMany]'s is taken here. *)
Definition Promise_all {A B : Type} (a : outcome A) (b : outcome B) : outcome (A * B) :=
  match a, b with
  | Resolved x, Resolved y => Resolved (x, y)
  | Rejected err, _ | _, Rejected err => Rejected err
  end.

(** ** Route handlers (api/routes/hashtags.ts and its siblings)

    The routers of posts, likes, comments and hashtags are one generated
    text: they differ in the entity's name and in the column a search
    reads. Each imports the schemas and the processor of its own entity
    from the entity's validation module. *)

(** What a router imports from [../validations/<entity>]. *)
Record validations : Type := {
  idParamSchema : string -> option string;
  querySchema : query_string -> option ListQuery;
  searchQuerySchema : query_string -> option SearchQuery;
  processQueryParams : ListQuery -> ProcessedQueryParams;
}.

(** api/validations/likes.ts *)
Definition likes_validations : validations :=
  {| idParamSchema := likesIdParamSchema;
     querySchema := likesQuerySchema;
     searchQuerySchema := likesSearchQuerySchema;
     processQueryParams := processLikesQueryParams |}.

(** Modelled from the spec: the validation modules of posts, comments
    and hashtags (api/validations/posts.ts, comments.ts, hashtags.ts)
    are not among the sources at hand. The specification describes one
    validation layer and one processor per entity, the same text with
    the entity's name replaced (sections 1, 2 and 4.1), as likes.ts and
    followers.ts are; every router is given the module of the likes. *)
Definition validations_of (e : entity) : validations := likes_validations.

Section Handlers.

Context (e : entity) (db : storage).

(** GET / *)
Definition listHandler (validatedQuery : ListQuery) : served :=
  let options := (validations_of e).(processQueryParams) validatedQuery in
  let whereClause := options.(where_) in
  let calls := [FindMany e whereClause options.(skip) options.(take);
                Count e whereClause] in
  match Promise_all
          (db.(findMany) e whereClause options.(skip) options.(take))
          (db.(count) e whereClause) with
  | Resolved (items, total) =>
      (calls,
       {| status := 200;
          json := Envelope items
            {| total := total;
               meta_skip := options.(skip);
               meta_take := options.(take);
               meta_page :=
                 (Math_floor (options.(skip) / options.(take)) + Fin 1)%js;
               totalPages := Math_ceil (total / options.(take))%js |} |})
  | Rejected error =>
      (calls,
       {| status := 500;
          json := Failure ("Failed to retrieve " ++ entity_name e)
                    (Some (details_of error "Unknown internal error")) |})
  end.

(** GET /:id *)
Definition getByIdHandler (id : string) : served :=
  let calls := [FindUnique e id] in
  match db.(findUnique) e id with
  | Resolved None =>
      (calls,
       {| status := 404; json := Failure (entity_name e ++ " not found") None |})
  | Resolved (Some item) =>
      (calls, {| status := 200; json := Item item |})
  | Rejected error =>
      (calls,
       {| status := 200;
          json := Failure "Failed to retrieve item"
                    (Some (details_of error "An unknown error occurred")) |})
  end.

(** The filter of a search: the text column of the entity starts with
    the query; likes have no text column. *)
Definition searchWhere (q : string) : where_clause :=
  let startsWith (column : string) : where_clause :=
    {["OR" := Or [ {[column := StartsWith q "insensitive"]} ]]} in
  match e with
  | Posts | Comments => startsWith "content"
  | Hashtags => startsWith "name"
  | Likes => ∅
  end.

(** The pagination of a search, [(page, skip, take)] (lines 182 to 187
    of the handler). *)
Definition searchPagination (validatedQuery : SearchQuery) : number * number * number :=
  let page := default (Fin 1) (parsed validatedQuery.(search_page)) in
  let limit := default (Fin 10) (parsed validatedQuery.(search_limit)) in
  let take := Math_min (Math_max limit (Fin 1)) (Fin 100) in
  let skip := ((page - Fin 1) * take)%js in
  (page, skip, take).

(** GET /search *)
Definition searchHandler (validatedQuery : SearchQuery) : served :=
  let '(page, skip, take) := searchPagination validatedQuery in
  let whereClause := searchWhere validatedQuery.(query) in
  let calls := [FindMany e whereClause skip take; Count e whereClause] in
  match Promise_all (db.(findMany) e whereClause skip take)
                    (db.(count) e whereClause) with
  | Resolved (items, total) =>
      (calls,
       {| status := 200;
          json := Envelope items
            {| total := total;
               meta_skip := skip;
               meta_take := take;
               meta_page := page;
               totalPages := Math_ceil (total / take)%js |} |})
  | Rejected error =>
      (calls,
       {| status := 500;
          json := Failure ("Failed to search " ++ entity_name e)
                    (Some (details_of error "Unknown internal error")) |})
  end.

End Handlers.

(** ** Routers *)

Inductive method : Type := GET | POST | PUT | DELETE.

#[global] Instance method_eq_dec : EqDecision method.
Proof. solve_decision. Defined.

Inductive operation : Type := List | GetById | Create | Update | Delete | Search.

(** A segment of a route's path: fixed text, or a parameter [:name]. *)
Inductive segment : Type :=
  | Static (s : string)
  | Param (name : string).

Record route : Type := {
  route_method : method;
  route_path : list segment;
  route_op : operation;
}.

(** The routes of an entity's router in the order of registration: the
    chain [.get('/') .get('/:id') .post('/') .put('/:id') .delete('/:id')
    .get('/search')] is the same in the four routers. *)
Definition router (e : entity) : list route :=
  [ {| route_method := GET;    route_path := [];                route_op := List |};
    {| route_method := GET;    route_path := [Param "id"];      route_op := GetById |};
    {| route_method := POST;   route_path := [];                route_op := Create |};
    {| route_method := PUT;    route_path := [Param "id"];      route_op := Update |};
    {| route_method := DELETE; route_path := [Param "id"];      route_op := Delete |};
    {| route_method := GET;    route_path := [Static "search"]; route_op := Search |} ].

(** A request path below the router's mount point, segment by segment
    ([/] is the empty list), against a route's path: the parameters it
    binds when it matches. A parameter takes one segment that is not
    empty. *)
Fixpoint match_path (pattern : list segment) (path : list string)
    : option (gmap string string) :=
  match pattern, path with
  | [], [] => Some ∅
  | Static s :: pattern', x :: path' =>
      if bool_decide (s = x) then match_path pattern' path' else None
  | Param name :: pattern', x :: path' =>
      if bool_decide (x = "") then None
      else <[name := x]> <$> match_path pattern' path'
  | _, _ => None
  end.

(** The routes that match a request, in the order of registration. *)
Definition matching (routes : list route) (m : method) (path : list string)
    : list (operation * gmap string string) :=
  omap (fun r =>
          if bool_decide (r.(route_method) = m)
          then (fun params => (r.(route_op), params)) <$> match_path r.(route_path) path
          else None)
       routes.

(** Dispatch in the order of registration: the handlers of the matching
    routes run in that order until one responds. Every route of these
    routers ends in a handler that responds on each of its paths, and
    its validators either respond 400 or pass on to it, so the first
    matching route answers. *)
Definition dispatch (routes : list route) (m : method) (path : list string)
    : option (operation * gmap string string) :=
  head (matching routes m path).

(** [.get('/', zValidator('query', <entity>QuerySchema), ...)] *)
Definition listRoute (e : entity) (db : storage) (qs : query_string) : served :=
  zValidator ((validations_of e).(querySchema) qs) (listHandler e db).

(** [.get('/:id', zValidator('param', <entity>IdParamSchema), ...)] *)
Definition getByIdRoute (e : entity) (db : storage) (params : gmap string string) : served :=
  zValidator (params !! "id" ≫= (validations_of e).(idParamSchema))
    (getByIdHandler e db).

(** [.get('/search', zValidator('query', <entity>SearchQuerySchema), ...)] *)
Definition searchRoute (e : entity) (db : storage) (qs : query_string) : served :=
  zValidator ((validations_of e).(searchQuerySchema) qs) (searchHandler e db).

(** A GET request to an entity's router. A path no GET route matches is
    answered by the framework with 404. *)
Definition serve_get (e : entity) (db : storage) (path : list string) (qs : query_string)
    : served :=
  match dispatch (router e) GET path with
  | Some (List, _) => listRoute e db qs
  | Some (GetById, params) => getByIdRoute e db params
  | Some (Search, _) => searchRoute e db qs
  | _ => ([], {| status := 404; json := Text "404 Not Found" |})
  end.


(** ** Create handler (POST /) *)

(** A value thrown by [create], as the handler reads it: [error?.code]
    and [error.meta?.target] beside what [thrown] records. The target is
    whatever the storage puts there ([T]); it is [None] when [meta] or
    [target] is missing. *)
Record write_error (T : Type) : Type := {
  as_thrown : thrown;
  error_code : option string;
  error_meta_target : option T;
}.
Arguments as_thrown {T} _.
Arguments error_code {T} _.
Arguments error_meta_target {T} _.

Inductive create_body (T : Type) : Type :=
  | Created (item : row)
  | Conflict (error : string) (details : option T)
  | NotCreated (error : string) (details : string)
  | InvalidBody.
Arguments Created {T} item.
Arguments Conflict {T} error details.
Arguments NotCreated {T} error details.
Arguments InvalidBody {T}.

Record create_response (T : Type) : Type := {
  create_status : Z;
  create_json : create_body T;
}.
Arguments create_status {T} _.
Arguments create_json {T} _.

(** POST /: the handler after the validator of the body. [D] is the
    validated payload and [create] the storage call; the list is the
    payloads [create] was called with. Writing the response is taken
    not to throw. *)
Definition createHandler {D T : Type} (e : entity)
    (create : D -> row + write_error T) (validatedData : D)
    : list D * create_response T :=
  match create validatedData with
  | inl item =>
      ([validatedData], {| create_status := 201; create_json := Created item |})
  | inr error =>
      if bool_decide (error.(error_code) = Some "P2002")
      then ([validatedData],
            {| create_status := 409;
               create_json := Conflict ("Could not create " ++ entity_name e)
                                error.(error_meta_target) |})
      else ([validatedData],
            {| create_status := 500;
               create_json :=
                 NotCreated ("Failed to create " ++ entity_name e)
                   (details_of error.(as_thrown) "An unknown error occurred") |})
  end.

(** [.post('/', zValidator('json', create<Entity>Schema), ...)], with the
    parse of the body given. *)
Definition createRoute {D T : Type} (e : entity)
    (create : D -> row + write_error T) (parsed : option D)
    : list D * create_response T :=
  match parsed with
  | Some valid => createHandler e create valid
  | None => ([], {| create_status := 400; create_json := InvalidBody |})
  end.

(** ** Payloads of a creation (createLikesSchema, api/validations/likes.ts) *)

(** A value of a parsed JSON body. A number is a double: [JInteger z]
    is the one whose value is the integer [z], [JFraction] any other
    (an infinity too, which a long exponent parses to). An array is
    known by the text it converts to ([Array.prototype.toString]: the
    texts of its items joined by commas, the empty text for an empty
    array). The fields of an object are in the order of the text; of a
    key written twice the last one counts. *)
#[warnings="-register-all"]
Inductive json_value : Type :=
  | JNull
  | JBool (b : bool)
  | JInteger (z : Z)
  | JFraction
  | JString (s : string)
  | JArray (text : string)
  | JObject (fields : list (string * json_value)).

(** The string without the white space it ends with: what is left
    when the rest is white space only is dropped. *)
Fixpoint trim_end (s : string) : string :=
  match s with
  | EmptyString => EmptyString
  | String c s' => if blank s then EmptyString else String c (trim_end s')
  end.

(** The value of a digit in a radix up to 16, if it is one. *)
Definition digit_in (radix : Z) (c : ascii) : option Z :=
  let n := code c in
  let v := if is_digit c then Some (n - 48)
           else if (97 <=? n) && (n <=? 102) then Some (n - 87)
           else if (65 <=? n) && (n <=? 70) then Some (n - 55)
           else None in
  v ≫= fun v => if v <? radix then Some v else None.

(** The value of a string made of digits of the radix only, most
    significant first. *)
Fixpoint digits_in (radix acc : Z) (s : string) : option Z :=
  match s with
  | EmptyString => Some acc
  | String c s' => v ← digit_in radix c; digits_in radix (radix * acc + v) s'
  end.

(** One digit at least. *)
Definition integer_in (radix : Z) (s : string) : option Z :=
  match s with
  | EmptyString => None
  | _ => digits_in radix 0 s
  end.

(** StringToBigInt: the text without the white space around it is
    empty, for 0, or a literal: decimal digits with an
    optional sign, or hexadecimal, octal or binary digits after [0x],
    [0o] or [0b], without a sign. [None] when it is neither. *)
Definition StringToBigInt (s : string) : option Z :=
  match trim_end (trim_start s) with
  | EmptyString => Some 0
  | String "0" (String "x" digits) | String "0" (String "X" digits) =>
      integer_in 16 digits
  | String "0" (String "o" digits) | String "0" (String "O" digits) =>
      integer_in 8 digits
  | String "0" (String "b" digits) | String "0" (String "B" digits) =>
      integer_in 2 digits
  | String "+" digits => integer_in 10 digits
  | String "-" digits => Z.opp <$> integer_in 10 digits
  | literal => integer_in 10 literal
  end.

(** [BigInt(value)] on a value of a JSON body; [None] when it throws.
    A number converts when it is an integer, a boolean is 1 or 0, a
    string is read by StringToBigInt and so is the text of an array;
    [null] does not convert, nor an object, whose text is
    [[object Object]]. *)
Definition BigInt (value : json_value) : option Z :=
  match value with
  | JNull => None
  | JBool b => Some (if b then 1 else 0)
  | JInteger z => Some z
  | JFraction => None
  | JString s => StringToBigInt s
  | JArray text => StringToBigInt text
  | JObject _ => None
  end.

(** [z.coerce.bigint()]: [BigInt] of the value, which throws on
    undefined; a throw fails the parse. *)
Definition z_coerce_bigint (value : option json_value) : option Z :=
  value ≫= BigInt.

(** The field of an object: the last one written under the key. *)
Definition field (fields : list (string * json_value)) (k : string) : option json_value :=
  last (filter (fun kv => kv.1 = k) fields).*2.

(** [z.infer<typeof createLikesSchema>] *)
Record LikesData : Type := {
  userId : Z;
  postId : Z;
}.

(** [createLikesSchema.safeParse]: the body is an object with a user id
    and a post id that convert; its other fields are dropped. *)
Definition createLikesSchema (body : json_value) : option LikesData :=
  match body with
  | JObject fields =>
      u ← z_coerce_bigint (field fields "userId");
      p ← z_coerce_bigint (field fields "postId");
      Some {| userId := u; postId := p |}
  | _ => None
  end.

(** [updateLikesSchema] is the same text. *)
Definition updateLikesSchema : json_value -> option LikesData := createLikesSchema.

(** [BigInt.prototype.toJSON] as app.ts sets it: [toString], the decimal
    text of the integer. *)
Definition toJSON (z : Z) : string :=
  DecimalString.NilZero.string_of_int (Z.to_int z).

(** ** Router aggregator (api/routes.ts) *)

(** What is mounted under a prefix: the router of an entity, or one of
    the two routers that are not among the sources at hand. *)
Inductive mounted : Type :=
  | Mounted (e : entity)
  | UsersRoute
  | FollowersRoute.

(** The [.route(prefix, router)] chain, in order. *)
Definition mounts : list (string * mounted) :=
  [ ("users", UsersRoute);
    ("posts", Mounted Posts);
    ("likes", Mounted Likes);
    ("comments", Mounted Comments);
    ("followers", FollowersRoute);
    ("hashtags", Mounted Hashtags) ].

(** A router as the aggregator uses it, on GET requests. *)
Definition sub_app : Type := storage -> list string -> query_string -> served.

(** A GET request to the aggregated router: the first segment of the
    path selects the mounted router, which gets the rest of the path;
    [/healthz], registered last, answers on its own. The routers of
    users and followers are parameters. *)
Definition routes_get (usersRoute followersRoute : sub_app) (db : storage)
    (path : list string) (qs : query_string) : served :=
  let not_found := ([], {| status := 404; json := Text "404 Not Found" |}) in
  match path with
  | prefix :: rest =>
      match head (filter (fun m => m.1 = prefix) mounts) with
      | Some (_, Mounted e) => serve_get e db rest qs
      | Some (_, UsersRoute) => usersRoute db rest qs
      | Some (_, FollowersRoute) => followersRoute db rest qs
      | None =>
          if bool_decide (path = ["healthz"])
          then ([], {| status := 200; json := Text "Health OK" |})
          else not_found
      end
  | [] => not_found
  end.

(** The table a storage call reads. *)
Definition call_entity (c : call) : entity :=
  match c with
  | FindMany e _ _ _ | Count e _ | FindUnique e _ => e
  end.



(** ** Inputs of the examples *)

(** A page of 309 digits, 17 and 307 zeros: a number below the largest
    double whose hundredfold is above it. *)
Definition huge_page : string :=
  "17" ++ string_of_list_ascii (replicate 307 "0"%char).

(** The number [parseInt] reads there. *)
Definition huge_page_value : Z :=
  Eval vm_compute in
    match parseInt huge_page with
    | Fin p => p
    | _ => 0
    end.

(** The no-break space U+00A0 and the line separator U+2028, in
    UTF-8. *)
Definition no_break_space : string :=
  String (ascii_of_nat 194) (String (ascii_of_nat 160) "").

Definition line_separator : string :=
  String (ascii_of_nat 226) (String (ascii_of_nat 128) (String (ascii_of_nat 168) "")).

(** ** Predicates of the statements *)

(** A key given once or not at all, with its value. *)
Definition given_once (qs : query_string) (k : string) (v : option string) : Prop :=
  (queries qs k = [] /\ v = None) \/ (exists s, queries qs k = [s] /\ v = Some s).

(** The fields a creation schema names. *)
Definition named (kv : string * json_value) : Prop :=
  kv.1 = "userId" \/ kv.1 = "postId".

#[global] Instance named_dec (kv : string * json_value) : Decision (named kv).
Proof. unfold named. apply _. Defined.

(** * Properties *)

(** ** Numbers and parsing *)

Lemma to_double_exact (z : Z) : Z.abs z < MAX_SAFE -> to_double z = Fin z.
Proof.
  intros H. unfold to_double.
  destruct (Z.ltb_spec (Z.abs z) MAX_SAFE) as [_|Hge]; [reflexivity | lia].
Qed.

(** 2^53 itself is a double. *)
Lemma to_double_exact_le (z : Z) : 0 <= z <= MAX_SAFE -> to_double z = Fin z.
Proof.
  intros Hz. destruct (Z.eq_dec z MAX_SAFE) as [-> | Hne]; [reflexivity |].
  apply to_double_exact. lia.
Qed.

(** Rounding to nearest stays within half a unit. *)
Lemma round_half_even_near (n d : Z) :
  0 < d ->
  2 * (round_half_even n d * d - n) <= d
  /\ 2 * (n - round_half_even n d * d) <= d.
Proof.
  intros Hd. unfold round_half_even.
  pose proof (Z.div_mod n d ltac:(lia)) as Hn.
  pose proof (Z.mod_pos_bound n d Hd) as Hr.
  repeat case_match; rewrite ?Z.ltb_lt, ?Z.ltb_ge in *; nia.
Qed.

Lemma round_half_even_nonneg (n d : Z) :
  0 <= n -> 0 < d -> 0 <= round_half_even n d.
Proof.
  intros Hn Hd. unfold round_half_even.
  pose proof (Z.div_pos n d Hn Hd).
  repeat case_match; lia.
Qed.

(** The double of a natural number is a natural number or +Infinity. *)
Lemma to_double_nonneg (z : Z) :
  0 <= z -> (exists v, to_double z = Fin v /\ 0 <= v) \/ to_double z = PosInf.
Proof.
  intros Hz. unfold to_double.
  destruct (Z.ltb_spec (Z.abs z) MAX_SAFE) as [_|Hge]; [left; eauto |].
  assert (Hsafe : 0 < MAX_SAFE) by reflexivity.
  rewrite Z.abs_eq in * by assumption.
  set (e := Z.log2 z - 52).
  assert (He : 0 < 2 ^ e).
  { apply Z.pow_pos_nonneg; [lia |]. unfold e.
    assert (53 <= Z.log2 z) by (apply Z.log2_le_pow2; [lia | exact Hge]). lia. }
  pose proof (round_half_even_nonneg z (2 ^ e) Hz He) as Hm.
  destruct (Z.leb_spec (2 ^ 1024) (round_half_even z (2 ^ e) * 2 ^ e)).
  - right. destruct (Z.ltb_spec z 0); [lia | reflexivity].
  - left. eexists; split; [reflexivity |].
    rewrite Z.sgn_pos by lia. nia.
Qed.

Lemma is_digit_code (c : ascii) : is_digit c = true -> 48 <= code c <= 57.
Proof. unfold is_digit. intros [?%Z.leb_le ?%Z.leb_le]%andb_true_iff. lia. Qed.

Lemma digits_prefix_count (s : string) (acc : Z) (n : nat) :
  (n <= (digits_prefix acc n s).2)%nat.
Proof.
  revert acc n. induction s as [|c s IH]; intros acc n; simpl; [lia |].
  destruct (is_digit c); simpl; [| lia].
  specialize (IH (10 * acc + (code c - 48)) (S n)). lia.
Qed.

Lemma digits_prefix_nonneg (s : string) (acc : Z) (n : nat) :
  0 <= acc -> 0 <= (digits_prefix acc n s).1.
Proof.
  revert acc n. induction s as [|c s IH]; intros acc n Hacc; simpl; [lia |].
  destruct (is_digit c) eqn:Hc; simpl; [| lia].
  apply IH. apply is_digit_code in Hc. lia.
Qed.

Lemma decimal_nonneg (s : string) : 0 <= decimal s.
Proof. apply digits_prefix_nonneg. lia. Qed.

(** A white space character of several bytes starts with a byte from
    192 on and goes on with bytes from 128 to 191. *)
Lemma is_space2_bytes (c1 c2 : ascii) :
  is_space2 c1 c2 = true -> 192 <= code c1 /\ 128 <= code c2 <= 191.
Proof.
  unfold is_space2. intros [?%Z.eqb_eq ?%Z.eqb_eq]%andb_true_iff. lia.
Qed.

Lemma is_space3_bytes (c1 c2 c3 : ascii) :
  is_space3 c1 c2 c3 = true ->
  192 <= code c1 /\ 128 <= code c2 <= 191 /\ 128 <= code c3 <= 191.
Proof.
  unfold is_space3.
  repeat rewrite ?orb_true_iff, ?andb_true_iff, ?Z.eqb_eq, ?Z.leb_le. lia.
Qed.

Lemma is_space_byte (c : ascii) : is_space c = true -> code c < 128.
Proof.
  unfold is_space.
  repeat rewrite ?orb_true_iff, ?andb_true_iff, ?Z.eqb_eq, ?Z.leb_le. lia.
Qed.

Lemma is_space2_false (c1 c2 : ascii) :
  code c1 < 192 \/ code c2 < 128 \/ 191 < code c2 -> is_space2 c1 c2 = false.
Proof.
  intros H. destruct (is_space2 c1 c2) eqn:E; [| reflexivity].
  apply is_space2_bytes in E. lia.
Qed.

Lemma is_space3_false (c1 c2 c3 : ascii) :
  code c1 < 192 \/ code c2 < 128 \/ 191 < code c2
  \/ code c3 < 128 \/ 191 < code c3 ->
  is_space3 c1 c2 c3 = false.
Proof.
  intros H. destruct (is_space3 c1 c2 c3) eqn:E; [| reflexivity].
  apply is_space3_bytes in E. lia.
Qed.

(** A string that starts with a character below 128 that is not white
    space starts with no white space. *)
Lemma starts_with_space_byte (c : ascii) (s : string) :
  is_space c = false -> code c < 192 -> starts_with_space (String c s) = false.
Proof.
  intros Hc Hcode. unfold starts_with_space. rewrite Hc.
  destruct s as [|c2 [|c3 s]]; [reflexivity | ..];
    rewrite ?is_space2_false, ?is_space3_false by lia; reflexivity.
Qed.

(** Nothing is trimmed from a string that starts with no white space. *)
Lemma trim_start_none (s : string) :
  starts_with_space s = false -> trim_start s = s.
Proof.
  destruct s as [|c1 [|c2 [|c3 s]]]; [reflexivity | ..]; simpl; intros H;
    destruct (is_space c1); try discriminate H; try reflexivity;
    destruct (is_space2 c1 c2); try discriminate H; try reflexivity;
    destruct (is_space3 c1 c2 c3); try discriminate H; reflexivity.
Qed.

Lemma blank_none (s : string) :
  s <> "" -> starts_with_space s = false -> blank s = false.
Proof.
  destruct s as [|c1 [|c2 [|c3 s]]]; [congruence | ..]; intros _; simpl;
    intros H;
    destruct (is_space c1); try discriminate H; try reflexivity;
    destruct (is_space2 c1 c2); try discriminate H; try reflexivity;
    destruct (is_space3 c1 c2 c3); try discriminate H; reflexivity.
Qed.

(** A digit is neither white space nor a sign. *)
Lemma digit_first (c : ascii) (s : string) :
  is_digit c = true ->
  trim_start (String c s) = String c s /\ c <> "-"%char /\ c <> "+"%char.
Proof.
  intros Hc. pose proof (is_digit_code c Hc) as Hcode.
  assert (Hsp : is_space c = false).
  { unfold is_space.
    apply orb_false_iff; split; [apply andb_false_iff; right |]; lia. }
  split; [apply trim_start_none, starts_with_space_byte; [exact Hsp | lia] |].
  split; intros ->; unfold code in Hcode; simpl in Hcode; lia.
Qed.

(** On a string of digits [parseInt] is the double of its value. *)
Lemma parseInt_digits (s : string) :
  digit_string s = true -> parseInt s = to_double (decimal s).
Proof.
  destruct s as [|c s]; [discriminate |]. simpl. intros [Hc _]%andb_true_iff.
  destruct (digit_first c s Hc) as (Htrim & Hminus & Hplus).
  unfold parseInt. rewrite Htrim.
  assert (Hsign :
    match String c s with
    | String "-" s' => (-1, s')
    | String "+" s' => (1, s')
    | _ => (1, String c s)
    end = (1, String c s)).
  { destruct c as [[] [] [] [] [] [] [] []]; try reflexivity; congruence. }
  rewrite Hsign. unfold decimal.
  pose proof (digits_prefix_count (String c s) 0 0) as Hn.
  simpl in Hn |- *. rewrite Hc in Hn |- *.
  pose proof (digits_prefix_count s (10 * 0 + (code c - 48)) 1) as Hn'.
  destruct (digits_prefix (10 * 0 + (code c - 48)) 1 s) as [v [|n]]; simpl in *;
    [lia |].
  f_equal. lia.
Qed.

Lemma parseInt_digits_nonneg (s : string) :
  digit_string s = true ->
  (exists v, parseInt s = Fin v /\ 0 <= v) \/ parseInt s = PosInf.
Proof.
  intros Hs. rewrite (parseInt_digits s Hs).
  apply to_double_nonneg, decimal_nonneg.
Qed.

(** ** The query-parameter processor *)

(** The two ways out of the processor. *)
Lemma process_success (query : ListQuery) :
  parseResult_success query = true ->
  processLikesQueryParams query =
    {| where_ := filters_of query;
       skip := skip_of (parsed query.(page)) (take_of (parsed query.(limit)));
       take := take_of (parsed query.(limit)) |}.
Proof.
  intros H. unfold processLikesQueryParams.
  fold (parseResult_success query). rewrite H. reflexivity.
Qed.

Lemma process_failure (query : ListQuery) :
  parseResult_success query = false -> processLikesQueryParams query = fallback.
Proof.
  intros H. unfold processLikesQueryParams.
  fold (parseResult_success query). rewrite H. reflexivity.
Qed.

Lemma z_number_int_true (lo : Z) (hi : option Z) (n : number) :
  z_number_int lo hi n = true ->
  exists z, n = Fin z /\ lo <= z /\ from_option (fun h => z <= h) True hi.
Proof.
  destruct n as [z| | |]; simpl; try discriminate.
  intros [Hlo Hhi]%andb_true_iff. exists z.
  split; [reflexivity |]. split; [lia |].
  destruct hi; simpl in *; [lia | exact I].
Qed.

(** What a successful re-validation says about the derived values. *)
Lemma parseResult_success_inv (query : ListQuery) :
  parseResult_success query = true ->
  exists s t,
    skip_of (parsed query.(page)) (take_of (parsed query.(limit))) = Fin s
    /\ take_of (parsed query.(limit)) = Fin t
    /\ 0 <= s /\ 1 <= t <= 100.
Proof.
  unfold parseResult_success, internalQueryParamsSchema.
  intros [[[Hs Ht]%andb_true_iff _]%andb_true_iff _]%andb_true_iff.
  apply z_number_int_true in Hs as (s & -> & ? & _).
  apply z_number_int_true in Ht as (t & -> & ? & ?).
  simpl in *. exists s, t. repeat split; lia.
Qed.

(** [skip] and [take] are integers in range on every way out. *)
Lemma process_range (query : ListQuery) :
  exists s t,
    (processLikesQueryParams query).(skip) = Fin s
    /\ (processLikesQueryParams query).(take) = Fin t
    /\ 0 <= s /\ 1 <= t <= 100.
Proof.
  destruct (parseResult_success query) eqn:H.
  - rewrite (process_success query H). simpl.
    apply parseResult_success_inv, H.
  - rewrite (process_failure query H). exists 0, 10. simpl.
    repeat split; lia.
Qed.

(** The re-validation refuses a parsed page that is not an integer from
    1 on, and a parsed limit that is not an integer from 1 to 100. *)
Lemma parseResult_page_refused (query : ListQuery) (n : number) :
  parsed query.(page) = Some n ->
  z_number_int 1 None n = false ->
  parseResult_success query = false.
Proof.
  intros Hp Hz. unfold parseResult_success, internalQueryParamsSchema.
  rewrite Hp. simpl. rewrite Hz.
  rewrite andb_false_r. reflexivity.
Qed.

Lemma parseResult_limit_refused (query : ListQuery) (n : number) :
  parsed query.(limit) = Some n ->
  z_number_int 1 (Some 100) n = false ->
  parseResult_success query = false.
Proof.
  intros Hl Hz. unfold parseResult_success, internalQueryParamsSchema.
  rewrite Hl. simpl. rewrite Hz.
  apply andb_false_r.
Qed.

Lemma take_of_valid (l : Z) : 1 <= l <= 100 -> take_of (Some (Fin l)) = Fin l.
Proof.
  intros Hl. unfold take_of, num_gt, num_le, num_lt.
  destruct l as [|l|l]; try lia. simpl.
  destruct (Z.ltb_spec 100 (Z.pos l)); [lia | reflexivity].
Qed.

Lemma skip_of_valid (p t : Z) :
  1 <= p -> 1 <= t -> (p - 1) * t < MAX_SAFE ->
  skip_of (Some (Fin p)) (Fin t) = Fin ((p - 1) * t).
Proof.
  intros Hp Ht Hs. unfold skip_of, num_gt, num_lt.
  destruct p as [|p|p]; try lia. simpl truthy. simpl andb. cbv iota.
  unfold num_sub. rewrite to_double_exact by nia.
  unfold num_mul. apply to_double_exact. nia.
Qed.

Lemma z_number_int_Fin (lo z : Z) (hi : option Z) :
  lo <= z -> from_option (fun h => z <= h) True hi ->
  z_number_int lo hi (Fin z) = true.
Proof.
  intros Hlo Hhi. simpl. apply andb_true_iff. split; [lia |].
  destruct hi; simpl in *; [lia | reflexivity].
Qed.

(** A page from 1 on (1 when absent) and a limit from 1 to 100 (10
    when absent) pass the re-validation while the offset is exact. *)
Lemma pagination_valid (query : ListQuery) (p l : Z) :
  default (Fin 1) (parsed query.(page)) = Fin p ->
  default (Fin 10) (parsed query.(limit)) = Fin l ->
  1 <= p -> 1 <= l <= 100 -> (p - 1) * l < MAX_SAFE ->
  parseResult_success query = true
  /\ take_of (parsed query.(limit)) = Fin l
  /\ skip_of (parsed query.(page)) (Fin l) = Fin ((p - 1) * l).
Proof.
  intros Hpage Hlimit Hp Hl Hs.
  assert (Htake : take_of (parsed query.(limit)) = Fin l).
  { destruct (parsed query.(limit)) as [n|]; simpl in Hlimit.
    - subst n. apply take_of_valid, Hl.
    - injection Hlimit as <-. reflexivity. }
  assert (Hskip : skip_of (parsed query.(page)) (Fin l) = Fin ((p - 1) * l)).
  { destruct (parsed query.(page)) as [n|]; simpl in Hpage.
    - subst n. apply skip_of_valid; lia.
    - injection Hpage as <-. reflexivity. }
  split; [| split; assumption].
  unfold parseResult_success, internalQueryParamsSchema.
  rewrite Htake, Hskip.
  rewrite !z_number_int_Fin by (simpl; nia). simpl.
  destruct (parsed query.(page)) as [n|]; simpl in Hpage |- *;
    [subst n; rewrite z_number_int_Fin by (simpl; lia) | ]; simpl;
  (destruct (parsed query.(limit)) as [n'|]; simpl in Hlimit |- *;
    [subst n'; rewrite z_number_int_Fin by (simpl; lia) | ]; reflexivity).
Qed.

(** The offset of a page from 1 on in double arithmetic: a natural
    number or +Infinity. *)
Lemma offset_cases (p l : Z) :
  1 <= p -> 1 <= l ->
  (exists s, ((Fin p - Fin 1) * Fin l)%js = Fin s /\ 0 <= s)
  \/ ((Fin p - Fin 1) * Fin l)%js = PosInf.
Proof.
  intros Hp Hl. unfold num_sub.
  destruct (to_double_nonneg (p - 1) ltac:(lia)) as [(a & -> & Ha) | ->].
  - unfold num_mul.
    destruct (to_double_nonneg (a * l) ltac:(nia)) as [(s & -> & Hs) | ->];
      [left; eauto | right; reflexivity].
  - right. destruct l; [lia | reflexivity | lia].
Qed.

(** With a page from 1 on (1 when absent) and a limit from 1 to 100
    (10 when absent), [take] is the limit, [skip] the offset in double
    arithmetic, and the re-validation succeeds exactly when the offset
    is finite. *)
Lemma pagination_in_bounds (query : ListQuery) (p l : Z) :
  default (Fin 1) (parsed query.(page)) = Fin p ->
  default (Fin 10) (parsed query.(limit)) = Fin l ->
  1 <= p -> 1 <= l <= 100 ->
  take_of (parsed query.(limit)) = Fin l
  /\ skip_of (parsed query.(page)) (Fin l) = ((Fin p - Fin 1) * Fin l)%js
  /\ ((exists s, ((Fin p - Fin 1) * Fin l)%js = Fin s /\ 0 <= s
                 /\ parseResult_success query = true)
      \/ (((Fin p - Fin 1) * Fin l)%js = PosInf
          /\ parseResult_success query = false)).
Proof.
  intros Hpage Hlimit Hp Hl.
  assert (Htake : take_of (parsed query.(limit)) = Fin l).
  { destruct (parsed query.(limit)) as [n|]; simpl in Hlimit.
    - subst n. apply take_of_valid, Hl.
    - injection Hlimit as <-. reflexivity. }
  assert (Hskip : skip_of (parsed query.(page)) (Fin l)
                  = ((Fin p - Fin 1) * Fin l)%js).
  { destruct (parsed query.(page)) as [n|]; simpl in Hpage.
    - subst n. unfold skip_of, num_gt, num_lt.
      destruct p as [|p|p]; try lia. reflexivity.
    - injection Hpage as <-. simpl skip_of.
      change (Fin 1 - Fin 1)%js with (Fin 0). reflexivity. }
  assert (Hopt :
    z_optional (z_number_int 1 None) (parsed query.(page)) = true
    /\ z_optional (z_number_int 1 (Some 100)) (parsed query.(limit)) = true).
  { split.
    - destruct (parsed query.(page)) as [n|]; simpl in Hpage |- *;
        [subst n; apply z_number_int_Fin; simpl; first [lia | exact I] | reflexivity].
    - destruct (parsed query.(limit)) as [n|]; simpl in Hlimit |- *;
        [subst n; apply z_number_int_Fin; simpl; lia | reflexivity]. }
  destruct Hopt as [Hopt_page Hopt_limit].
  split; [exact Htake |]. split; [exact Hskip |].
  unfold parseResult_success, internalQueryParamsSchema.
  rewrite Htake, Hskip, Hopt_page, Hopt_limit.
  rewrite (z_number_int_Fin 1 l (Some 100)) by (simpl; lia).
  destruct (offset_cases p l Hp ltac:(lia)) as [(s & -> & Hs) | ->].
  - left. exists s. split; [reflexivity |]. split; [exact Hs |].
    rewrite (z_number_int_Fin 0 s None) by (simpl; first [lia | exact I]).
    reflexivity.
  - right. split; reflexivity.
Qed.


(** C2: the processor is a total function whose [skip] and [take] are
    integers on every input, [skip] from 0 on and [take] from 1 to 100;
    when the re-validation of the derived values fails, as it does for a
    parsed page that is not an integer from 1 on (0, NaN) and for a
    parsed limit that is not an integer from 1 to 100 (above 100), the
    result is exactly [{where: {}, skip: 0, take: 10}]. *)
Theorem processor_total (query : ListQuery) :
  let r := processLikesQueryParams query in
  (exists s t, r.(skip) = Fin s /\ r.(take) = Fin t /\ 0 <= s /\ 1 <= t <= 100)
  /\ (parseResult_success query = false ->
      r = {| where_ := ∅; skip := Fin 0; take := Fin 10 |})
  /\ (forall l, parsed query.(limit) = Some (Fin l) -> 100 < l ->
      r = {| where_ := ∅; skip := Fin 0; take := Fin 10 |})
  /\ (parsed query.(page) = Some (Fin 0) ->
      r = {| where_ := ∅; skip := Fin 0; take := Fin 10 |})
  /\ (forall n, parsed query.(page) = Some n -> isInteger n = false ->
      r = {| where_ := ∅; skip := Fin 0; take := Fin 10 |})
  /\ (forall n, parsed query.(limit) = Some n -> isInteger n = false ->
      r = {| where_ := ∅; skip := Fin 0; take := Fin 10 |}).
Proof.
  cbv zeta. split; [apply process_range |].
  split; [apply process_failure |].
  split; [| split; [| split]].
  - intros l Hl Hbig. apply process_failure.
    apply (parseResult_limit_refused query (Fin l) Hl). simpl.
    destruct (Z.leb_spec l 100); [lia |]. apply andb_false_r.
  - intros Hp. apply process_failure.
    apply (parseResult_page_refused query (Fin 0) Hp). reflexivity.
  - intros n Hn Hint. apply process_failure.
    apply (parseResult_page_refused query n Hn).
    destruct n; [discriminate | reflexivity ..].
  - intros n Hn Hint. apply process_failure.
    apply (parseResult_limit_refused query n Hn).
    destruct n; [discriminate | reflexivity ..].
Qed.

(** The fall-back at work: a limit of 101, a page of 0 and a page that
    is no number each drop the filter and the pagination asked for. *)
Lemma processor_total_witness :
  processLikesQueryParams
    {| page := Some "2"; limit := Some "101"; name := Some "a"; description := None |}
  = {| where_ := ∅; skip := Fin 0; take := Fin 10 |}
  /\ processLikesQueryParams
       {| page := Some "0"; limit := Some "5"; name := Some "a"; description := None |}
     = {| where_ := ∅; skip := Fin 0; take := Fin 10 |}
  /\ processLikesQueryParams
       {| page := Some "x"; limit := Some "5"; name := Some "a"; description := None |}
     = {| where_ := ∅; skip := Fin 0; take := Fin 10 |}.
Proof.
  split; [| split].
  - destruct (processor_total
                {| page := Some "2"; limit := Some "101"; name := Some "a";
                   description := None |}) as (_ & _ & H & _).
    apply (H 101); [reflexivity | lia].
  - destruct (processor_total
                {| page := Some "0"; limit := Some "5"; name := Some "a";
                   description := None |}) as (_ & _ & _ & H & _).
    apply H. reflexivity.
  - destruct (processor_total
                {| page := Some "x"; limit := Some "5"; name := Some "a";
                   description := None |}) as (_ & _ & _ & _ & H & _).
    apply (H NaN); reflexivity.
Defined.

(** C1 as stated fails where the re-validation falls back: with page 0
    the parsed limit 5 lies in [1,100], and [take] is 10; with limit 500
    the parsed page 3 is positive and [take] is 10, and [skip] is 0,
    not [(3 - 1) * 10]. *)
Lemma list_pagination_counterexample :
  let q1 := {| page := Some "0"; limit := Some "5";
               name := None; description := None |} in
  let q2 := {| page := Some "3"; limit := Some "500";
               name := None; description := None |} in
  (parsed q1.(limit) = Some (Fin 5)
   /\ (processLikesQueryParams q1).(take) = Fin 10
   /\ (processLikesQueryParams q1).(take) <> Fin 5)
  /\ (parsed q2.(page) = Some (Fin 3)
      /\ (processLikesQueryParams q2).(take) = Fin 10
      /\ (processLikesQueryParams q2).(skip) = Fin 0
      /\ (processLikesQueryParams q2).(skip) <> Fin ((3 - 1) * 10)).
Proof. cbv zeta. repeat split; try reflexivity; vm_compute; discriminate. Qed.

(** C1, amended: with [pg] the parsed page (1 when absent) and [lim]
    the parsed limit (10 when absent): when [pg] is an integer from 1 on
    and [lim] an integer from 1 to 100, the offset [(pg - 1) * lim] of
    double arithmetic is a natural number or +Infinity; when it is a
    number, [take] is [lim] and [skip] is the offset, which is the exact
    product while this is below 2^53; when it is +Infinity the
    re-validation falls back, and [take] is 10 and [skip] is 0. [take]
    is 10 and [skip] is 0 as well when [pg] is an integer below 1, when
    [lim] is an integer outside [1,100], and when either is not an
    integer. [take] lies in [1,100] on every input. The processor of
    the followers is the same function. *)
Theorem list_pagination (query : ListQuery) :
  let r := processLikesQueryParams query in
  let pg := default (Fin 1) (parsed query.(page)) in
  let lim := default (Fin 10) (parsed query.(limit)) in
  (exists t, r.(take) = Fin t /\ 1 <= t <= 100)
  /\ (forall p l, pg = Fin p -> lim = Fin l -> 1 <= p -> 1 <= l <= 100 ->
        ((exists s, ((Fin p - Fin 1) * Fin l)%js = Fin s /\ 0 <= s
                    /\ r.(take) = Fin l /\ r.(skip) = Fin s)
         \/ (((Fin p - Fin 1) * Fin l)%js = PosInf
             /\ r.(take) = Fin 10 /\ r.(skip) = Fin 0))
        /\ ((p - 1) * l < MAX_SAFE ->
            r.(take) = Fin l /\ r.(skip) = Fin ((p - 1) * l)))
  /\ (forall p, pg = Fin p -> p < 1 ->
        r.(take) = Fin 10 /\ r.(skip) = Fin 0)
  /\ (forall l, lim = Fin l -> l < 1 \/ 100 < l ->
        r.(take) = Fin 10 /\ r.(skip) = Fin 0)
  /\ (isInteger pg = false \/ isInteger lim = false ->
        r.(take) = Fin 10 /\ r.(skip) = Fin 0)
  /\ processFollowersQueryParams query = r.
Proof.
  cbv zeta.
  assert (Hfall : parseResult_success query = false ->
                  (processLikesQueryParams query).(take) = Fin 10
                  /\ (processLikesQueryParams query).(skip) = Fin 0).
  { intros H. rewrite (process_failure query H). split; reflexivity. }
  split; [| split; [| split; [| split; [| split; [| reflexivity]]]]].
  - destruct (process_range query) as (s & t & _ & Ht & _ & Hr). eauto.
  - intros p l Hp Hl Hp1 Hl1. split.
    + destruct (pagination_in_bounds query p l Hp Hl Hp1 Hl1)
        as (Ht & Hsk & [(s & Hs & Hs0 & Hok) | (Hinf & Hko)]).
      * left. exists s. rewrite (process_success query Hok). simpl.
        rewrite Ht, Hsk. repeat split; assumption.
      * right. split; [exact Hinf | apply Hfall, Hko].
    + intros Hs.
      destruct (pagination_valid query p l Hp Hl Hp1 Hl1 Hs) as (Hok & Ht & Hsk).
      rewrite (process_success query Hok). simpl. rewrite Ht.
      split; [reflexivity | exact Hsk].
  - intros p Hp Hlt. apply Hfall.
    destruct (parsed query.(page)) as [n|] eqn:Hn; simpl in Hp.
    + subst n. apply (parseResult_page_refused query (Fin p) Hn). simpl.
      destruct (Z.leb_spec 1 p); [lia | reflexivity].
    + injection Hp as <-. lia.
  - intros l Hl Hout. apply Hfall.
    destruct (parsed query.(limit)) as [n|] eqn:Hn; simpl in Hl.
    + subst n. apply (parseResult_limit_refused query (Fin l) Hn). simpl.
      destruct (Z.leb_spec 1 l), (Z.leb_spec l 100); try reflexivity; lia.
    + injection Hl as <-. lia.
  - intros [H | H]; apply Hfall.
    + destruct (parsed query.(page)) as [n|] eqn:Hn; simpl in H; [| discriminate].
      apply (parseResult_page_refused query n Hn).
      destruct n; [discriminate | reflexivity ..].
    + destruct (parsed query.(limit)) as [n|] eqn:Hn; simpl in H; [| discriminate].
      apply (parseResult_limit_refused query n Hn).
      destruct n; [discriminate | reflexivity ..].
Qed.

(** Page 3 of 20 starts at offset 40; a page of 309 digits with a limit
    of 100 has the offset +Infinity and gets the defaults. *)
Lemma list_pagination_witness :
  let r := processLikesQueryParams
             {| page := Some "3"; limit := Some "20";
                name := None; description := None |} in
  let r' := processLikesQueryParams
              {| page := Some huge_page; limit := Some "100";
                 name := None; description := None |} in
  (r.(take) = Fin 20 /\ r.(skip) = Fin ((3 - 1) * 20))
  /\ (r'.(take) = Fin 10 /\ r'.(skip) = Fin 0).
Proof.
  cbv zeta. split.
  - destruct (list_pagination
                {| page := Some "3"; limit := Some "20";
                   name := None; description := None |}) as (_ & H & _).
    apply (H 3 20); [reflexivity | reflexivity | lia | lia | reflexivity].
  - destruct (list_pagination
                {| page := Some huge_page; limit := Some "100";
                   name := None; description := None |}) as (_ & H & _).
    destruct (H huge_page_value 100) as [[(s & Hs & _) | (_ & Hr)] _];
      [vm_compute; reflexivity | reflexivity | vm_compute; discriminate
      | lia | | exact Hr].
    vm_compute in Hs. discriminate Hs.
Defined.


Lemma filters_of_name (query : ListQuery) :
  filters_of query !! "name" =
    if truthy_string query.(name)
    then Some (Cond (Contains (default "" query.(name)) "insensitive"))
    else None.
Proof.
  unfold filters_of.
  destruct (truthy_string query.(name)), (truthy_string query.(description));
    by simplify_map_eq.
Qed.

Lemma filters_of_description (query : ListQuery) :
  filters_of query !! "description" =
    if truthy_string query.(description)
    then Some (Cond (Contains (default "" query.(description)) "insensitive"))
    else None.
Proof.
  unfold filters_of.
  destruct (truthy_string query.(name)), (truthy_string query.(description));
    by simplify_map_eq.
Qed.


(** The filter of the result, key by key. *)
Lemma process_where (query : ListQuery) (k : string) :
  (processLikesQueryParams query).(where_) !! k =
    if parseResult_success query then filters_of query !! k else None.
Proof.
  destruct (parseResult_success query) eqn:H.
  - rewrite (process_success query H). reflexivity.
  - rewrite (process_failure query H). apply lookup_empty.
Qed.




(** C10: a text filter given as the empty string leaves no key in the
    [where] of the result, as an absent one does (the guard on the
    filter's value is false for the empty string); so for the processor
    of the followers, the same function. *)
Theorem empty_filter_is_absent (query : ListQuery) :
  (query.(name) = Some "" ->
     (processLikesQueryParams query).(where_) !! "name" = None)
  /\ (query.(description) = Some "" ->
     (processLikesQueryParams query).(where_) !! "description" = None)
  /\ processFollowersQueryParams query = processLikesQueryParams query.
Proof.
  split; [| split; [| reflexivity]]; intros H; rewrite process_where.
  - rewrite filters_of_name, H.
    destruct (parseResult_success query); reflexivity.
  - rewrite filters_of_description, H.
    destruct (parseResult_success query); reflexivity.
Qed.

(** Empty filters on a query that passes the re-validation. *)
Lemma empty_filter_is_absent_witness :
  let r := processLikesQueryParams
             {| page := Some "2"; limit := Some "5";
                name := Some ""; description := Some "" |} in
  r.(where_) !! "name" = None /\ r.(where_) !! "description" = None
  /\ r.(skip) = Fin 5.
Proof.
  cbv zeta.
  destruct (empty_filter_is_absent
              {| page := Some "2"; limit := Some "5";
                 name := Some ""; description := Some "" |}) as (Hn & Hd & _).
  split; [apply Hn; reflexivity | split; [apply Hd; reflexivity | reflexivity]].
Defined.

(** ** Search handlers *)

Lemma searchHandler_calls (e : entity) (db : storage) (q : SearchQuery) :
  (searchHandler e db q).1 =
    [FindMany e (searchWhere e q.(query))
       (searchPagination q).1.2 (searchPagination q).2;
     Count e (searchWhere e q.(query))].
Proof.
  unfold searchHandler. destruct (searchPagination q) as [[pg sk] tk].
  destruct (Promise_all _ _) as [[items n]|err]; reflexivity.
Qed.

(** [Math.min(Math.max(limit, 1), 100)] on an integer. *)
Lemma clamp_Fin (l : Z) :
  Math_min (Math_max (Fin l) (Fin 1)) (Fin 100) = Fin (Z.min (Z.max l 1) 100).
Proof.
  unfold Math_max, num_lt. destruct (Z.ltb_spec l 1); unfold Math_min, num_lt.
  - simpl. f_equal. lia.
  - destruct (Z.ltb_spec 100 l); f_equal; lia.
Qed.

Lemma clamp_range (l : Z) : 1 <= Z.min (Z.max l 1) 100 <= 100.
Proof. lia. Qed.

(** [(page - 1) * take] on integers, while it is exact. *)
Lemma offset_exact (p t : Z) :
  1 <= t -> - MAX_SAFE < (p - 1) * t < MAX_SAFE ->
  ((Fin p - Fin 1) * Fin t)%js = Fin ((p - 1) * t).
Proof.
  intros Ht Hs. unfold num_sub.
  rewrite to_double_exact by (apply Z.abs_lt; nia).
  unfold num_mul. apply to_double_exact, Z.abs_lt. lia.
Qed.



(** What the search schema lets through as page and limit. *)
Lemma z_digits_optional_Some (v : raw) (s : string) :
  z_digits_optional v = Some (Some s) -> digit_string s = true.
Proof.
  unfold z_digits_optional. destruct v as [|s'|l]; simpl; try discriminate.
  destruct (digit_string s') eqn:H; [| discriminate].
  intros [= <-]. exact H.
Qed.

Lemma search_schema_limit (qs : query_string) (q : SearchQuery) :
  likesSearchQuerySchema qs = Some q ->
  q.(search_limit) = None
  \/ exists s, q.(search_limit) = Some s /\ digit_string s = true.
Proof.
  unfold likesSearchQuerySchema.
  destruct (z_string_min1 _) as [qu|]; [| discriminate]. simpl.
  destruct (z_digits_optional (query_value qs "page")) as [p|]; [| discriminate].
  simpl.
  destruct (z_digits_optional (query_value qs "limit")) as [[s|]|] eqn:Hl;
    [| | discriminate]; simpl; intros [= <-]; simpl.
  - right. exists s. split; [reflexivity |]. eapply z_digits_optional_Some, Hl.
  - left. reflexivity.
Qed.

(** The [take] of a search that passed the schema is an integer from 1
    to 100. *)
Lemma search_take_range (qs : query_string) (q : SearchQuery) :
  likesSearchQuerySchema qs = Some q ->
  exists t, (searchPagination q).2 = Fin t /\ 1 <= t <= 100.
Proof.
  intros Hq. unfold searchPagination. cbn [snd].
  destruct (search_schema_limit qs q Hq) as [-> | (s & -> & Hs)].
  - exists 10. split; [reflexivity | lia].
  - unfold parsed. destruct s as [|c s]; [discriminate |].
    cbn [truthy_string fmap option_fmap option_map default from_option id].
    destruct (parseInt_digits_nonneg _ Hs) as [(v & -> & Hv) | ->].
    + rewrite clamp_Fin. eexists. split; [reflexivity | apply clamp_range].
    + exists 100. split; [reflexivity | lia].
Qed.

(** C9: a search whose page is the string 0, which the schema lets
    through, is run with [skip = (0 - 1) * take = -take], a negative
    offset, handed as it is to [findMany]. *)
Theorem search_page_zero_negative_skip
    (e : entity) (db : storage) (qs : query_string) (q : SearchQuery) :
  likesSearchQuerySchema qs = Some q ->
  q.(search_page) = Some "0" ->
  z_digits_optional (RString "0") = Some (Some "0")
  /\ exists t, 1 <= t <= 100
     /\ searchPagination q = (Fin 0, Fin (- t), Fin t)
     /\ (searchRoute e db qs).1 =
          [FindMany e (searchWhere e q.(query)) (Fin (- t)) (Fin t);
           Count e (searchWhere e q.(query))].
Proof.
  intros Hq Hp. split; [reflexivity |].
  destruct (search_take_range qs q Hq) as (t & Ht & Hr).
  exists t. split; [exact Hr |].
  assert (Hpag : searchPagination q = (Fin 0, Fin (- t), Fin t)).
  { unfold searchPagination in *. cbn [snd] in Ht. rewrite Ht, Hp.
    cbn [parsed truthy_string fmap option_fmap option_map default from_option id].
    change (parseInt "0") with (Fin 0).
    rewrite offset_exact by (unfold MAX_SAFE; lia).
    repeat f_equal; lia. }
  split; [exact Hpag |].
  unfold searchRoute, zValidator, validations_of. cbn [searchQuerySchema likes_validations].
  rewrite Hq, searchHandler_calls, Hpag.
  reflexivity.
Qed.

(** GET /search?query=a&page=0&limit=5 on the likes router's search
    route: offset -5. *)
Lemma search_page_zero_negative_skip_witness :
  (searchRoute Likes
     empty_storage
     [("query", "a"); ("page", "0"); ("limit", "5")]).1
  = [FindMany Likes ∅ (Fin (-5)) (Fin 5); Count Likes ∅].
Proof.
  destruct (search_page_zero_negative_skip Likes
              empty_storage
              [("query", "a"); ("page", "0"); ("limit", "5")]
              {| query := "a"; search_page := Some "0"; search_limit := Some "5" |}
              eq_refl eq_refl) as (_ & t & _ & Hpag & Hcalls).
  rewrite Hcalls.
  assert (t = 5) as -> by (vm_compute in Hpag; congruence).
  reflexivity.
Defined.

(** ** List handlers *)

(** Below 2^53 the exponent of a quotient of positive integers lies
    between -53 and 52, and [2^e <= a / b]. *)
Lemma exponent_of_ratio_lower (a b : Z) :
  0 < a -> 0 < b ->
  b * 2 ^ Z.max (exponent_of_ratio a b) 0
    <= a * 2 ^ Z.max (- exponent_of_ratio a b) 0.
Proof.
  intros Ha Hb. unfold exponent_of_ratio.
  set (e := Z.log2 a - Z.log2 b).
  destruct (Z.leb_spec (b * 2 ^ Z.max e 0) (a * 2 ^ Z.max (- e) 0)) as [H|_];
    [exact H |].
  destruct (Z.log2_spec a Ha) as [Hla _].
  destruct (Z.log2_spec b Hb) as [_ Hlb].
  pose proof (Z.log2_nonneg a). pose proof (Z.log2_nonneg b).
  destruct (Z.le_gt_cases 0 (e - 1)) as [Hpos|Hneg].
  - rewrite Z.max_l, Z.max_r, Z.mul_1_r by lia.
    assert (Hsplit : 2 ^ Z.log2 a = 2 ^ Z.succ (Z.log2 b) * 2 ^ (e - 1)).
    { rewrite <- Z.pow_add_r by lia. f_equal. unfold e. lia. }
    assert (0 < 2 ^ (e - 1)) by (apply Z.pow_pos_nonneg; lia).
    nia.
  - rewrite Z.max_r, Z.max_l, Z.mul_1_r by lia.
    assert (Hsplit : 2 ^ Z.succ (Z.log2 b) = 2 ^ Z.log2 a * 2 ^ (- (e - 1))).
    { rewrite <- Z.pow_add_r by lia. f_equal. unfold e. lia. }
    assert (0 < 2 ^ (- (e - 1))) by (apply Z.pow_pos_nonneg; lia).
    nia.
Qed.

Lemma exponent_of_ratio_range (a b : Z) :
  0 < a < MAX_SAFE -> 0 < b < MAX_SAFE ->
  -53 <= exponent_of_ratio a b <= 52.
Proof.
  intros Ha Hb.
  pose proof (exponent_of_ratio_lower a b ltac:(lia) ltac:(lia)) as Hlow.
  split.
  - assert (Z.log2 b < 53) by (apply Z.log2_lt_pow2; [lia | apply Hb]).
    pose proof (Z.log2_nonneg a).
    unfold exponent_of_ratio. case_match; lia.
  - destruct (Z.le_gt_cases (exponent_of_ratio a b) 52) as [H|H]; [exact H |].
    exfalso. rewrite Z.max_l, Z.max_r, Z.mul_1_r in Hlow by lia.
    assert (2 ^ 53 <= 2 ^ exponent_of_ratio a b)
      by (apply Z.pow_le_mono_r; lia).
    unfold MAX_SAFE in *. nia.
Qed.

(** The quotient of positive integers below 2^53 is [m / 2^j] with [m]
    within half a unit of [a * 2^j / b], and [b < 2 * 2^j]. *)
Lemma nearest_ratio_safe (a b : Z) :
  0 < a < MAX_SAFE -> 0 < b < MAX_SAFE ->
  exists m j,
    nearest_ratio a b = Dyadic m (- j)
    /\ 0 <= j /\ b < 2 * 2 ^ j
    /\ 2 * (m * b - a * 2 ^ j) <= b
    /\ 2 * (a * 2 ^ j - m * b) <= b.
Proof.
  intros Ha Hb.
  pose proof (exponent_of_ratio_lower a b ltac:(lia) ltac:(lia)) as Hlow.
  pose proof (exponent_of_ratio_range a b Ha Hb) as He.
  unfold nearest_ratio.
  set (e := exponent_of_ratio a b) in *.
  rewrite (Z.max_l (e - 52)) by lia.
  rewrite (Z.max_l (- (e - 52))), (Z.max_r (e - 52) 0), !Z.mul_1_r by lia.
  set (j := - (e - 52)).
  assert (Hjdef : j = 52 - e) by (unfold j; lia). clearbody j.
  set (m := round_half_even (a * 2 ^ j) b).
  destruct (round_half_even_near (a * 2 ^ j) b ltac:(lia)) as [Hup Hdown].
  fold m in Hup, Hdown.
  assert (Hj : 0 < 2 ^ j) by (apply Z.pow_pos_nonneg; lia).
  assert (Hbj : b < 2 * 2 ^ j).
  { unfold MAX_SAFE in *.
    destruct (Z.le_gt_cases 0 e) as [Hpos|Hneg].
    - rewrite Z.max_l, Z.max_r, Z.mul_1_r in Hlow by lia.
      assert (H53 : 2 ^ 53 = 2 * 2 ^ j * 2 ^ e).
      { change (2 * 2 ^ j) with (2 ^ 1 * 2 ^ j).
        rewrite <- !Z.pow_add_r by lia. f_equal. lia. }
      assert (0 < 2 ^ e) by (apply Z.pow_pos_nonneg; lia). nia.
    - rewrite Z.max_r, Z.max_l, Z.mul_1_r in Hlow by lia.
      assert (H2j : 2 * 2 ^ j = 2 ^ 53 * 2 ^ (- e)).
      { change (2 * 2 ^ j) with (2 ^ 1 * 2 ^ j).
        rewrite <- !Z.pow_add_r by lia. f_equal. lia. }
      assert (0 < 2 ^ (- e)) by (apply Z.pow_pos_nonneg; lia). nia. }
  assert (Hsmall : m < 2 ^ 1024).
  { assert (2 ^ j <= 2 ^ 105) by (apply Z.pow_le_mono_r; lia).
    assert (2 ^ 53 * 2 ^ 105 + 1 < 2 ^ 1024) by reflexivity.
    unfold MAX_SAFE in *. nia. }
  destruct (Z.leb_spec (2 ^ 1024) m) as [Hbig|_]; [lia |].
  exists m, j. replace (e - 52) with (- j) by lia.
  repeat split; first [assumption | lia].
Qed.

(** [m / 2^j] lies on the same side of every integer as [a / b]. *)
Lemma dyadic_sides (a b m K c : Z) :
  0 < b -> b < 2 * K ->
  2 * (m * b - a * K) <= b -> 2 * (a * K - m * b) <= b ->
  (c * b <= a -> c * K <= m)
  /\ (a < c * b -> m < c * K)
  /\ (a <= c * b -> m <= c * K)
  /\ (c * b < a -> c * K < m).
Proof.
  intros Hb HK Hup Hdown. repeat split; intros H.
  - destruct (Z.le_gt_cases (c * K) m) as [|Hm]; [assumption | exfalso].
    assert (m * b <= (c * K - 1) * b) by (apply Z.mul_le_mono_nonneg_r; lia).
    assert (c * b * K <= a * K) by (apply Z.mul_le_mono_nonneg_r; lia).
    lia.
  - destruct (Z.lt_ge_cases m (c * K)) as [|Hm]; [assumption | exfalso].
    assert (c * K * b <= m * b) by (apply Z.mul_le_mono_nonneg_r; lia).
    assert (a * K <= (c * b - 1) * K) by (apply Z.mul_le_mono_nonneg_r; lia).
    lia.
  - destruct (Z.le_gt_cases m (c * K)) as [|Hm]; [assumption | exfalso].
    assert ((c * K + 1) * b <= m * b) by (apply Z.mul_le_mono_nonneg_r; lia).
    assert (a * K <= c * b * K) by (apply Z.mul_le_mono_nonneg_r; lia).
    lia.
  - destruct (Z.lt_ge_cases (c * K) m) as [|Hm]; [assumption | exfalso].
    assert (m * b <= c * K * b) by (apply Z.mul_le_mono_nonneg_r; lia).
    assert ((c * b + 1) * K <= a * K) by (apply Z.mul_le_mono_nonneg_r; lia).
    lia.
Qed.

Lemma floor_bounds (s t : Z) : 0 < t -> (s / t) * t <= s < (s / t + 1) * t.
Proof.
  intros Ht. pose proof (Z.div_mod s t ltac:(lia)) as Hdm.
  pose proof (Z.mod_pos_bound s t Ht). nia.
Qed.

Lemma ceiling_bounds (n t : Z) :
  0 < t -> (- (- n / t) - 1) * t < n <= - (- n / t) * t.
Proof.
  intros Ht. pose proof (floor_bounds (- n) t Ht). nia.
Qed.

(** Rounding the quotient to a double does not move it across an
    integer: [Math.floor(a / b)] and [Math.ceil(a / b)] are the floor
    and the ceiling of the exact quotient, for integers below 2^53. *)
Lemma Math_floor_div (a b : Z) :
  0 <= a < MAX_SAFE -> 0 < b < MAX_SAFE ->
  Math_floor (Fin a / Fin b)%js = Fin (a / b).
Proof.
  intros Ha Hb.
  destruct b as [|b|b]; try lia. destruct a as [|a|a]; try lia; [reflexivity |].
  change (num_div (Fin (Z.pos a)) (Fin (Z.pos b)))
    with (nearest_ratio (Z.pos a) (Z.pos b)).
  destruct (nearest_ratio_safe (Z.pos a) (Z.pos b) ltac:(lia) ltac:(lia))
    as (m & j & -> & Hj & HK & Hup & Hdown).
  unfold Math_floor.
  rewrite (Z.max_r (- j) 0), (Z.max_l (- - j) 0) by lia.
  rewrite Z.opp_involutive, Z.pow_0_r, Z.mul_1_r.
  f_equal. symmetry.
  pose proof (floor_bounds (Z.pos a) (Z.pos b) ltac:(lia)) as [Hlo Hhi].
  destruct (dyadic_sides (Z.pos a) (Z.pos b) m (2 ^ j) (Z.pos a / Z.pos b)
              ltac:(lia) HK Hup Hdown) as (Hge & _).
  destruct (dyadic_sides (Z.pos a) (Z.pos b) m (2 ^ j) (Z.pos a / Z.pos b + 1)
              ltac:(lia) HK Hup Hdown) as (_ & Hlt & _).
  specialize (Hge Hlo). specialize (Hlt Hhi).
  apply Z.div_unique with (r := m - 2 ^ j * (Z.pos a / Z.pos b)); [| ring].
  left. clear - Hge Hlt.
  generalize dependent (Z.pos a / Z.pos b). generalize dependent (2 ^ j).
  intros K q Hge Hlt. lia.
Qed.

Lemma Math_ceil_div (a b : Z) :
  0 <= a < MAX_SAFE -> 0 < b < MAX_SAFE ->
  Math_ceil (Fin a / Fin b)%js = Fin (- (- a / b)).
Proof.
  intros Ha Hb.
  destruct b as [|b|b]; try lia. destruct a as [|a|a]; try lia; [reflexivity |].
  change (num_div (Fin (Z.pos a)) (Fin (Z.pos b)))
    with (nearest_ratio (Z.pos a) (Z.pos b)).
  destruct (nearest_ratio_safe (Z.pos a) (Z.pos b) ltac:(lia) ltac:(lia))
    as (m & j & -> & Hj & HK & Hup & Hdown).
  unfold Math_ceil.
  rewrite (Z.max_r (- j) 0), (Z.max_l (- - j) 0) by lia.
  rewrite Z.opp_involutive, Z.pow_0_r, Z.mul_1_r.
  f_equal. f_equal. symmetry.
  pose proof (ceiling_bounds (Z.pos a) (Z.pos b) ltac:(lia)) as [Hlo Hhi].
  set (c := - (- Z.pos a / Z.pos b)) in *.
  destruct (dyadic_sides (Z.pos a) (Z.pos b) m (2 ^ j) c
              ltac:(lia) HK Hup Hdown) as (_ & _ & Hle & _).
  destruct (dyadic_sides (Z.pos a) (Z.pos b) m (2 ^ j) (c - 1)
              ltac:(lia) HK Hup Hdown) as (_ & _ & _ & Hgt).
  specialize (Hle Hhi). specialize (Hgt Hlo).
  replace (- Z.pos a / Z.pos b) with (- c) by (unfold c; lia).
  apply Z.div_unique with (r := 2 ^ j * c - m); [| ring].
  left. clearbody c. clear - Hle Hgt.
  generalize dependent (2 ^ j). intros K Hle Hgt. lia.
Qed.

(** C4 as stated fails from 2^53 on, where a double no longer holds
    every integer: the page 9007199254740994 with the limit 1 passes
    the schema and the re-validation, [skip] is 2^53 and [take] is 1,
    and [meta.page] is 2^53, not [floor(skip / take) + 1]. *)
Lemma list_meta_pages_counterexample :
  let query := {| page := Some "9007199254740994"; limit := Some "1";
                  name := None; description := None |} in
  let options := processLikesQueryParams query in
  likesQuerySchema [("page", "9007199254740994"); ("limit", "1")] = Some query
  /\ options.(skip) = Fin (2 ^ 53) /\ options.(take) = Fin 1
  /\ (listHandler Likes storage_of_25 query).2 =
       {| status := 200;
          json := Envelope []
            {| total := Fin 25; meta_skip := Fin (2 ^ 53); meta_take := Fin 1;
               meta_page := Fin (2 ^ 53); totalPages := Fin 25 |} |}
  /\ 2 ^ 53 <> 2 ^ 53 / 1 + 1.
Proof. cbv zeta. repeat split; vm_compute; first [reflexivity | discriminate]. Qed.

(** C4, amended: in the envelope of a list handler, for the [skip] and
    [take] of the processor and a total [n >= 0] from the count, with
    [skip] and [n] below 2^53 (where the doubles of the computation are
    exact), [meta.page] is [floor(skip / take) + 1] and
    [meta.totalPages] is [ceil(n / take)]: the integers [pg + 1] and
    [pages] with [pg * take <= skip < (pg + 1) * take] and
    [(pages - 1) * take < n <= pages * take]. A total of 25 with a
    take of 10 gives 3 pages. *)
Theorem list_meta_pages (e : entity) (db : storage) (query : ListQuery)
    (items : list row) (s t n : Z) :
  let options := processLikesQueryParams query in
  options.(skip) = Fin s -> options.(take) = Fin t ->
  s < MAX_SAFE -> 0 <= n < MAX_SAFE ->
  db.(findMany) e options.(where_) (Fin s) (Fin t) = Resolved items ->
  db.(count) e options.(where_) = Resolved (Fin n) ->
  (exists pg pages,
     (listHandler e db query).2 =
       {| status := 200;
          json := Envelope items
            {| total := Fin n; meta_skip := Fin s; meta_take := Fin t;
               meta_page := Fin (pg + 1); totalPages := Fin pages |} |}
     /\ pg = s / t /\ pg * t <= s < (pg + 1) * t
     /\ (pages - 1) * t < n <= pages * t)
  /\ Math_ceil (Fin 25 / Fin 10)%js = Fin 3.
Proof.
  cbv zeta. intros Hs Ht Hsafe Hn Hfind Hcount. split; [| reflexivity].
  destruct (process_range query) as (s' & t' & Hs' & Ht' & Hs0 & Htr).
  rewrite Hs in Hs'. rewrite Ht in Ht'.
  injection Hs' as <-. injection Ht' as <-.
  assert (Ht0 : 0 < t) by lia.
  pose proof (floor_bounds s t Ht0) as Hfl.
  pose proof (ceiling_bounds n t Ht0) as Hce.
  exists (s / t), (- (- n / t)).
  split; [| split; [reflexivity | split; assumption]].
  unfold listHandler, validations_of. cbn [processQueryParams likes_validations].
  rewrite Hs, Ht, Hfind, Hcount. simpl Promise_all.
  cbn [snd].
  rewrite Math_floor_div, Math_ceil_div by (unfold MAX_SAFE in *; lia).
  assert (Hq : 0 <= s / t <= s) by (split; [apply Z.div_pos; lia | nia]).
  unfold num_add. rewrite (to_double_exact_le (s / t + 1)) by lia.
  reflexivity.
Qed.

(** Page 2 of the likes, ten a page, 25 in all. *)
Lemma list_meta_pages_witness :
  (listHandler Likes
     storage_of_25
     {| page := Some "2"; limit := Some "10"; name := None; description := None |}).2
  = {| status := 200;
       json := Envelope []
         {| total := Fin 25; meta_skip := Fin 10; meta_take := Fin 10;
            meta_page := Fin 2; totalPages := Fin 3 |} |}.
Proof.
  destruct (list_meta_pages Likes
              storage_of_25
              {| page := Some "2"; limit := Some "10";
                 name := None; description := None |}
              [] 10 10 25 eq_refl eq_refl eq_refl
              (conj (Z.lt_le_incl 0 25 eq_refl) eq_refl)
              eq_refl eq_refl)
    as [(pg & pages & Hresp & _ & Hpg & Hpages) _].
  rewrite Hresp.
  assert (pg = 1) as -> by lia. assert (pages = 3) as -> by lia.
  reflexivity.
Defined.

(** ** Get by id and routing *)

(** C6: when [findUnique] throws, the get-by-id handler answers with
    the generic message and the error's text but never sets the status:
    the response goes out with 200, where the list and search handlers
    answer the same failure with 500. *)
Theorem getById_storage_failure_status (e : entity) (id : string) (err : thrown) :
  let db := failing_storage err in
  getByIdHandler e db id =
    ([FindUnique e id],
     {| status := 200;
        json := Failure "Failed to retrieve item"
                  (Some (details_of err "An unknown error occurred")) |})
  /\ (forall query, (listHandler e db query).2.(status) = 500)
  /\ (forall q, (searchHandler e db q).2.(status) = 500).
Proof.
  cbv zeta. split; [reflexivity |]. split.
  - intros query. reflexivity.
  - intros q. unfold searchHandler.
    destruct (searchPagination q) as [[pg sk] tk]. reflexivity.
Qed.

(** Whatever the storage answers, the get-by-id handler asks it once and
    responds with 200 or 404. *)
Lemma getByIdHandler_status (e : entity) (db : storage) (id : string) :
  (getByIdHandler e db id).1 = [FindUnique e id]
  /\ ((getByIdHandler e db id).2.(status) = 200
      \/ (getByIdHandler e db id).2.(status) = 404).
Proof.
  unfold getByIdHandler.
  destruct (db.(findUnique) e id) as [[item|]|err]; simpl; auto.
Qed.

(** The path [/search] reaches the get-by-id route. *)
Lemma serve_get_search (e : entity) (db : storage) (qs : query_string) :
  serve_get e db ["search"] qs = getByIdHandler e db "search".
Proof. reflexivity. Qed.

(** The search route's own validator refuses a query that is missing or
    empty, before its handler runs. *)
Lemma searchRoute_rejects (e : entity) (db : storage) (qs : query_string) :
  query_value qs "query" = RUndefined \/ query_value qs "query" = RString "" ->
  searchRoute e db qs = ([], {| status := 400; json := Invalid |}).
Proof.
  intros H. unfold searchRoute, validations_of.
  cbn [searchQuerySchema likes_validations]. unfold likesSearchQuerySchema.
  destruct H as [-> | ->]; reflexivity.
Qed.

(** C7: a GET of [/search] is answered by the get-by-id route, which
    comes first: whatever the query string, with [query] missing or
    empty too, [findUnique] is called with the id [search] and the
    response is 200 or 404, not 400. *)
Theorem search_request_not_rejected (e : entity) (db : storage) (qs : query_string) :
  (serve_get e db ["search"] qs).1 = [FindUnique e "search"]
  /\ (serve_get e db ["search"] qs).2.(status) <> 400.
Proof.
  rewrite serve_get_search.
  destruct (getByIdHandler_status e db "search") as [Hcalls [Hst | Hst]];
    (split; [exact Hcalls | rewrite Hst; discriminate]).
Qed.

(** C8: every router registers GET /:id before GET /search; both match
    the path [/search], the get-by-id route first, so the request is
    answered by the get-by-id handler with id [search], and no request
    at all is dispatched to the search route. *)
Theorem search_route_shadowed (e : entity) :
  (exists i j : nat,
     router e !! i = Some {| route_method := GET; route_path := [Param "id"];
                             route_op := GetById |}
     /\ router e !! j = Some {| route_method := GET; route_path := [Static "search"];
                                route_op := Search |}
     /\ (i < j)%nat)
  /\ matching (router e) GET ["search"] =
       [(GetById, {["id" := "search"]}); (Search, ∅)]
  /\ dispatch (router e) GET ["search"] = Some (GetById, {["id" := "search"]})
  /\ (forall db qs, serve_get e db ["search"] qs = getByIdHandler e db "search")
  /\ (forall m path params, dispatch (router e) m path <> Some (Search, params)).
Proof.
  split; [exists 1%nat, 5%nat; repeat split; lia |].
  split; [reflexivity |]. split; [reflexivity |]. split; [reflexivity |].
  intros m path params. unfold dispatch, matching, router.
  destruct m, path as [|x [|y path]]; cbn; try discriminate;
    repeat case_bool_decide; cbn; try discriminate.
  congruence.
Qed.

(** * Further properties *)

(** ** Validation layer *)

(** The values of a key do not depend on pairs with another key, nor,
    up to their order, on the order of the query string. *)
Lemma queries_cons_ne (qs : query_string) (k k' v : string) :
  k <> k' -> queries ((k, v) :: qs) k' = queries qs k'.
Proof.
  intros Hne. unfold queries, query_string in *.
  rewrite filter_cons_False; [reflexivity |].
  simpl. congruence.
Qed.

Lemma queries_Permutation (qs qs' : query_string) (k : string) :
  qs ≡ₚ qs' -> queries qs k ≡ₚ queries qs' k.
Proof. intros H. unfold queries, query_string in *. by rewrite H. Qed.

Lemma z_string_optional_given (qs : query_string) (k : string) (v : option string) :
  z_string_optional (query_value qs k) = Some v <-> given_once qs k v.
Proof.
  unfold query_value, given_once.
  destruct (queries qs k) as [|s [|s' l]]; simpl; split.
  - intros [= <-]. left. split; reflexivity.
  - intros [[_ ->] | (s & Hs & _)]; [reflexivity | discriminate].
  - intros [= <-]. right. eauto.
  - intros [[Hs _] | (s0 & [= <-] & ->)]; [discriminate | reflexivity].
  - discriminate.
  - intros [[Hs _] | (s0 & Hs & _)]; discriminate.
Qed.

Lemma z_digits_optional_given (qs : query_string) (k : string) (v : option string) :
  z_digits_optional (query_value qs k) = Some v <->
  given_once qs k v /\ from_option (fun s => digit_string s = true) True v.
Proof.
  unfold z_digits_optional. rewrite <- z_string_optional_given.
  destruct (z_string_optional (query_value qs k)) as [[s|]|]; simpl.
  - destruct (digit_string s) eqn:Hs; split.
    + intros [= <-]. split; [reflexivity | exact Hs].
    + intros [[= <-] _]. reflexivity.
    + discriminate.
    + intros [[= <-] Hd]. simpl in Hd. congruence.
  - split; [intros [= <-]; split; [reflexivity | exact I] | intros [[= <-] _]; reflexivity].
  - split; [discriminate | intros [[=] _]].
Qed.

(** X1: the list schema accepts a query string exactly when page, limit,
    name and description are each given at most once and page and limit,
    when given, are non-empty strings of digits; the validated record
    then holds the values as they were given. *)
Theorem list_schema_accepts (qs : query_string) (q : ListQuery) :
  likesQuerySchema qs = Some q <->
    (given_once qs "page" q.(page)
     /\ from_option (fun s => digit_string s = true) True q.(page))
    /\ (given_once qs "limit" q.(limit)
        /\ from_option (fun s => digit_string s = true) True q.(limit))
    /\ given_once qs "name" q.(name)
    /\ given_once qs "description" q.(description).
Proof.
  rewrite <- !z_digits_optional_given, <- !z_string_optional_given.
  unfold likesQuerySchema. destruct q as [p l n d]. simpl.
  destruct (z_digits_optional (query_value qs "page")) as [p'|]; simpl;
    [| split; [discriminate | intros ([=] & _)]].
  destruct (z_digits_optional (query_value qs "limit")) as [l'|]; simpl;
    [| split; [discriminate | intros (_ & [=] & _)]].
  destruct (z_string_optional (query_value qs "name")) as [n'|]; simpl;
    [| split; [discriminate | intros (_ & _ & [=] & _)]].
  destruct (z_string_optional (query_value qs "description")) as [d'|]; simpl;
    [| split; [discriminate | intros (_ & _ & _ & [=])]].
  split.
  - intros [= -> -> -> ->]. repeat split; reflexivity.
  - intros ([= ->] & [= ->] & [= ->] & [= ->]). reflexivity.
Qed.

(** X2: the search schema accepts a query string exactly when [query] is
    given once and is not empty, and page and limit are each given at
    most once as non-empty strings of digits. *)
Theorem search_schema_accepts (qs : query_string) (q : SearchQuery) :
  likesSearchQuerySchema qs = Some q <->
    (queries qs "query" = [q.(query)] /\ q.(query) <> "")
    /\ (given_once qs "page" q.(search_page)
        /\ from_option (fun s => digit_string s = true) True q.(search_page))
    /\ (given_once qs "limit" q.(search_limit)
        /\ from_option (fun s => digit_string s = true) True q.(search_limit)).
Proof.
  rewrite <- !z_digits_optional_given.
  unfold likesSearchQuerySchema. destruct q as [qu p l]. simpl.
  assert (Hq : forall v, z_string_min1 (query_value qs "query") = Some v <->
                         queries qs "query" = [v] /\ v <> "").
  { intros v. unfold query_value, z_string_min1.
    destruct (queries qs "query") as [|s [|s' r]]; simpl.
    - split; [discriminate | intros [[=] _]].
    - destruct s as [|c s]; [simpl |].
      + split; [discriminate | intros [[= <-] H]; congruence].
      + assert ((1 <=? Z.of_nat (String.length (String c s))) = true) as ->
          by (apply Z.leb_le; simpl; lia).
        split; [intros [= <-]; split; [reflexivity | discriminate]
               | intros [[= <-] _]; reflexivity].
    - split; [discriminate | intros [[=] _]]. }
  rewrite <- Hq.
  destruct (z_string_min1 (query_value qs "query")) as [qu'|]; simpl;
    [| split; [discriminate | intros ([=] & _)]].
  destruct (z_digits_optional (query_value qs "page")) as [p'|]; simpl;
    [| split; [discriminate | intros (_ & [=] & _)]].
  destruct (z_digits_optional (query_value qs "limit")) as [l'|]; simpl;
    [| split; [discriminate | intros (_ & _ & [=])]].
  split.
  - intros [= -> -> ->]. repeat split; reflexivity.
  - intros ([= ->] & [= ->] & [= ->]). reflexivity.
Qed.

(** What a schema reads of a key depends on the values of the key up
    to their order only. *)
Lemma z_string_optional_values (qs qs' : query_string) (k : string) :
  queries qs k ≡ₚ queries qs' k ->
  z_string_optional (query_value qs k) = z_string_optional (query_value qs' k).
Proof.
  unfold query_value. intros H.
  destruct (queries qs k) as [|a [|b l]].
  - apply Permutation_nil_l in H as <-. reflexivity.
  - apply Permutation_singleton_l in H as <-. reflexivity.
  - pose proof (Permutation_length H) as Hlen.
    destruct (queries qs' k) as [|a' [|b' l']]; try discriminate. reflexivity.
Qed.

Lemma z_digits_optional_values (qs qs' : query_string) (k : string) :
  queries qs k ≡ₚ queries qs' k ->
  z_digits_optional (query_value qs k) = z_digits_optional (query_value qs' k).
Proof.
  intros H. unfold z_digits_optional.
  rewrite (z_string_optional_values qs qs' k H). reflexivity.
Qed.

Lemma z_string_min1_values (qs qs' : query_string) (k : string) :
  queries qs k ≡ₚ queries qs' k ->
  z_string_min1 (query_value qs k) = z_string_min1 (query_value qs' k).
Proof.
  unfold query_value. intros H.
  destruct (queries qs k) as [|a [|b l]].
  - apply Permutation_nil_l in H as <-. reflexivity.
  - apply Permutation_singleton_l in H as <-. reflexivity.
  - pose proof (Permutation_length H) as Hlen.
    destruct (queries qs' k) as [|a' [|b' l']]; try discriminate. reflexivity.
Qed.

Lemma queries_extra (qs qs' extra : query_string) (k : string) :
  Forall (fun kv => kv.1 <> k) extra ->
  qs' ≡ₚ qs ++ extra ->
  queries qs' k ≡ₚ queries qs k.
Proof.
  intros Hextra Hperm. rewrite (queries_Permutation _ _ k Hperm).
  unfold queries, query_string in *. rewrite filter_app.
  assert (filter (fun kv : string * string => kv.1 = k) extra = []) as ->.
  { clear Hperm. induction Hextra as [|kv extra Hkv _ IH]; [reflexivity |].
    rewrite filter_cons_False by exact Hkv. exact IH. }
  by rewrite app_nil_r.
Qed.

(** X3: the order of the parameters in the URL and parameters under other
    names do not change what the list schema and the search schema
    answer. *)
Theorem schemas_read_their_keys_only (qs qs' extra : query_string) :
  qs' ≡ₚ qs ++ extra ->
  (Forall (fun kv => kv.1 ∉ ["page"; "limit"; "name"; "description"]) extra ->
     likesQuerySchema qs' = likesQuerySchema qs)
  /\ (Forall (fun kv => kv.1 ∉ ["query"; "page"; "limit"]) extra ->
     likesSearchQuerySchema qs' = likesSearchQuerySchema qs).
Proof.
  intros Hperm. split; intros Hextra.
  - assert (Hk : forall k, k ∈ ["page"; "limit"; "name"; "description"] ->
                           queries qs' k ≡ₚ queries qs k).
    { intros k Hin. apply (queries_extra qs qs' extra k); [| exact Hperm].
      eapply Forall_impl; [exact Hextra |].
      intros kv Hkv Heq. apply Hkv. rewrite Heq. exact Hin. }
    unfold likesQuerySchema.
    rewrite (z_digits_optional_values qs' qs "page") by (apply Hk; set_solver).
    rewrite (z_digits_optional_values qs' qs "limit") by (apply Hk; set_solver).
    rewrite (z_string_optional_values qs' qs "name") by (apply Hk; set_solver).
    rewrite (z_string_optional_values qs' qs "description") by (apply Hk; set_solver).
    reflexivity.
  - assert (Hk : forall k, k ∈ ["query"; "page"; "limit"] ->
                           queries qs' k ≡ₚ queries qs k).
    { intros k Hin. apply (queries_extra qs qs' extra k); [| exact Hperm].
      eapply Forall_impl; [exact Hextra |].
      intros kv Hkv Heq. apply Hkv. rewrite Heq. exact Hin. }
    unfold likesSearchQuerySchema.
    rewrite (z_string_min1_values qs' qs "query") by (apply Hk; set_solver).
    rewrite (z_digits_optional_values qs' qs "page") by (apply Hk; set_solver).
    rewrite (z_digits_optional_values qs' qs "limit") by (apply Hk; set_solver).
    reflexivity.
Qed.

(** [?limit=5&sort=asc&page=2] is read as [?page=2&limit=5]. *)
Lemma schemas_read_their_keys_only_witness :
  likesQuerySchema [("limit", "5"); ("sort", "asc"); ("page", "2")]
  = likesQuerySchema [("page", "2"); ("limit", "5")].
Proof.
  apply (schemas_read_their_keys_only
           [("page", "2"); ("limit", "5")]
           [("limit", "5"); ("sort", "asc"); ("page", "2")]
           [("sort", "asc")]).
  - change [("limit", "5"); ("sort", "asc"); ("page", "2")]
      with ([("limit", "5"); ("sort", "asc")] ++ [("page", "2")])%list.
    change ([("page", "2"); ("limit", "5")] ++ [("sort", "asc")])%list
      with ([("page", "2")] ++ [("limit", "5"); ("sort", "asc")])%list.
    apply Permutation_app_comm.
  - constructor; [| constructor]. simpl. intros H.
    repeat (apply elem_of_cons in H as [H|H]; [discriminate |]).
    by apply elem_of_nil in H.
Defined.

(** ** Numbers, further *)

(** The double of a natural number: at most twice the number and
    finite below 2^1023; at least any bound up to 2^52 the number
    reaches. *)
Lemma to_double_unit (z : Z) :
  MAX_SAFE <= z ->
  0 < 2 ^ (Z.log2 z - 52) <= z
  /\ 2 * (round_half_even z (2 ^ (Z.log2 z - 52)) * 2 ^ (Z.log2 z - 52) - z)
       <= 2 ^ (Z.log2 z - 52)
  /\ 2 * (z - round_half_even z (2 ^ (Z.log2 z - 52)) * 2 ^ (Z.log2 z - 52))
       <= 2 ^ (Z.log2 z - 52).
Proof.
  intros Hz. assert (Hsafe : 0 < MAX_SAFE) by reflexivity.
  assert (Hlog : 53 <= Z.log2 z) by (apply Z.log2_le_pow2; [lia | exact Hz]).
  assert (He : 0 < 2 ^ (Z.log2 z - 52)) by (apply Z.pow_pos_nonneg; lia).
  split; [split; [exact He |] | apply round_half_even_near, He].
  destruct (Z.log2_spec z ltac:(lia)) as [Hlow _].
  assert (2 ^ (Z.log2 z - 52) <= 2 ^ Z.log2 z) by (apply Z.pow_le_mono_r; lia).
  lia.
Qed.

Lemma to_double_bounded (z : Z) :
  0 <= z < 2 ^ 1023 -> exists v, to_double z = Fin v /\ 0 <= v <= 2 * z.
Proof.
  intros Hz. unfold to_double. rewrite Z.abs_eq by lia.
  destruct (Z.ltb_spec z MAX_SAFE) as [_|Hge]; [exists z; split; [reflexivity | lia] |].
  destruct (to_double_unit z Hge) as ((He & Hez) & Hup & Hdown).
  set (v := round_half_even z (2 ^ (Z.log2 z - 52)) * 2 ^ (Z.log2 z - 52)) in *.
  assert (H1024 : 2 ^ 1024 = 2 * 2 ^ 1023) by reflexivity.
  destruct (Z.leb_spec (2 ^ 1024) v) as [Hbig|_]; [lia |].
  exists (Z.sgn z * v). rewrite Z.sgn_pos by lia.
  split; [reflexivity | lia].
Qed.

Lemma to_double_ge (z c : Z) :
  0 <= z -> c <= z -> c <= 2 ^ 52 ->
  (exists v, to_double z = Fin v /\ c <= v) \/ to_double z = PosInf.
Proof.
  intros Hz Hc Hc52. unfold to_double. rewrite Z.abs_eq by lia.
  destruct (Z.ltb_spec z MAX_SAFE) as [_|Hge]; [left; eauto |].
  destruct (to_double_unit z Hge) as ((He & Hez) & Hup & Hdown).
  set (v := round_half_even z (2 ^ (Z.log2 z - 52)) * 2 ^ (Z.log2 z - 52)) in *.
  destruct (Z.leb_spec (2 ^ 1024) v).
  - right. destruct (Z.ltb_spec z 0); [lia | reflexivity].
  - left. exists (Z.sgn z * v). rewrite Z.sgn_pos by lia.
    split; [reflexivity |]. unfold MAX_SAFE in Hge.
    assert (2 ^ 53 = 2 * 2 ^ 52) by reflexivity. lia.
Qed.

(** ** The processor on validated queries *)

Lemma parsed_digits (s : string) :
  digit_string s = true -> parsed (Some s) = Some (to_double (decimal s)).
Proof.
  intros Hs. unfold parsed. rewrite <- (parseInt_digits s Hs).
  destruct s; [discriminate | reflexivity].
Qed.

Lemma take_of_range (limit : option number) :
  exists t, take_of limit = Fin t /\ 1 <= t <= 100.
Proof.
  unfold take_of, num_gt, num_le, num_lt.
  destruct limit as [[l| | |]|]; simpl; try (exists 10; split; [reflexivity | lia]).
  destruct l as [|l|l]; simpl; try (exists 10; split; [reflexivity | lia]).
  destruct (Z.ltb_spec 100 (Z.pos l)); simpl;
    [exists 10 | exists (Z.pos l)]; split; try reflexivity; lia.
Qed.

(** The re-validation of a limit that is a string of digits. *)
Lemma limit_check_digits (l : Z) :
  0 <= l ->
  z_number_int 1 (Some 100) (to_double l) = (1 <=? l) && (l <=? 100).
Proof.
  intros Hl. destruct (Z.le_gt_cases l 100) as [Hle|Hgt].
  - rewrite to_double_exact by (apply Z.abs_lt; unfold MAX_SAFE; lia). reflexivity.
  - destruct (to_double_ge l 101 Hl ltac:(lia) ltac:(lia)) as [(v & -> & Hv) | ->];
      simpl.
    + destruct (Z.leb_spec v 100), (Z.leb_spec l 100);
        rewrite ?andb_false_r; first [reflexivity | lia].
    + destruct (Z.leb_spec l 100);
        rewrite ?andb_false_r; first [reflexivity | lia].
Qed.

(** The offset of a page below 2^53 is a finite natural number. *)
Lemma skip_of_finite (p : Z) (take : number) :
  0 <= p < MAX_SAFE ->
  (exists t, take = Fin t /\ 1 <= t <= 100) ->
  z_number_int 0 None (skip_of (Some (Fin p)) take) = true.
Proof.
  intros Hp (t & -> & Ht). unfold skip_of, num_gt, num_lt.
  destruct p as [|p|p]; try lia; [reflexivity |].
  simpl truthy. simpl andb. cbv iota.
  unfold num_sub. rewrite to_double_exact by (apply Z.abs_lt; lia).
  unfold num_mul, MAX_SAFE in *.
  assert (2 ^ 53 * 100 < 2 ^ 1023) by reflexivity.
  destruct (to_double_bounded ((Z.pos p - 1) * t) ltac:(nia)) as (v & -> & Hv).
  apply z_number_int_Fin; [lia | exact I].
Qed.

(** What the re-validation answers on a validated query whose page is
    below 2^53: no iff the page is 0 or the limit is outside [1,100]. *)
Lemma parseResult_success_validated (qs : query_string) (q : ListQuery) :
  likesQuerySchema qs = Some q ->
  (forall s, q.(page) = Some s -> decimal s < MAX_SAFE) ->
  parseResult_success q =
    from_option (fun p => 1 <=? p) true (decimal <$> q.(page))
    && from_option (fun l => (1 <=? l) && (l <=? 100)) true (decimal <$> q.(limit)).
Proof.
  intros ((_ & Hpage) & (_ & Hlimit) & _)%list_schema_accepts Hsmall.
  unfold parseResult_success, internalQueryParamsSchema.
  destruct (take_of_range (parsed q.(limit))) as (t & Ht & Hr).
  assert (Hlim : z_optional (z_number_int 1 (Some 100)) (parsed q.(limit)) =
                 from_option (fun l => (1 <=? l) && (l <=? 100)) true
                   (decimal <$> q.(limit))).
  { destruct q.(limit) as [s|]; [| reflexivity]. simpl in Hlimit.
    rewrite (parsed_digits s Hlimit). simpl.
    apply limit_check_digits, decimal_nonneg. }
  rewrite Hlim, Ht.
  rewrite (z_number_int_Fin 1 t (Some 100)) by (simpl; lia).
  destruct q.(page) as [s|]; [| reflexivity]. simpl in Hpage.
  rewrite (parsed_digits s Hpage).
  pose proof (decimal_nonneg s) as H0. specialize (Hsmall s eq_refl).
  rewrite (to_double_exact (decimal s)) by (apply Z.abs_lt; lia).
  rewrite skip_of_finite by (eauto; lia).
  cbn -[decimal Z.leb]. rewrite andb_true_r. reflexivity.
Qed.

(** X4: a validated list query (page below 2^53) falls back to the defaults
    exactly when its page is 0 or its limit is 0 or above 100, leading
    zeros or not; every other validated query keeps its pagination and
    its filters. *)
Theorem validated_list_fallback (qs : query_string) (q : ListQuery) :
  likesQuerySchema qs = Some q ->
  (forall s, q.(page) = Some s -> decimal s < MAX_SAFE) ->
  (parseResult_success q = false <->
     decimal <$> q.(page) = Some 0
     \/ exists l, decimal <$> q.(limit) = Some l /\ (l = 0 \/ 100 < l))
  /\ (parseResult_success q = false ->
      processLikesQueryParams q = {| where_ := ∅; skip := Fin 0; take := Fin 10 |})
  /\ (parseResult_success q = true ->
      (processLikesQueryParams q).(where_) = filters_of q
      /\ (processLikesQueryParams q).(take) =
           Fin (default 10 (decimal <$> q.(limit)))).
Proof.
  intros Hq Hsmall.
  pose proof (parseResult_success_validated qs q Hq Hsmall) as Hok.
  split; [| split].
  - rewrite Hok, andb_false_iff.
    destruct (decimal <$> q.(page)) as [p|] eqn:Hp;
      destruct (decimal <$> q.(limit)) as [l|] eqn:Hl; simpl.
    + assert (0 <= p) by (destruct q.(page); inversion Hp; apply decimal_nonneg).
      assert (0 <= l) by (destruct q.(limit); inversion Hl; apply decimal_nonneg).
      rewrite andb_false_iff, !Z.leb_gt. split.
      * intros [? | [? | ?]]; [left; f_equal; lia | right; exists l; split; [reflexivity | lia] ..].
      * intros [[= ->] | (l' & [= <-] & Hl')]; lia.
    + assert (0 <= p) by (destruct q.(page); inversion Hp; apply decimal_nonneg).
      rewrite Z.leb_gt. split.
      * intros [? | ?]; [left; f_equal; lia | discriminate].
      * intros [[= ->] | (l' & [=] & _)]. left. lia.
    + assert (0 <= l) by (destruct q.(limit); inversion Hl; apply decimal_nonneg).
      rewrite andb_false_iff, !Z.leb_gt. split.
      * intros [? | [? | ?]]; [discriminate | right; exists l; split; [reflexivity | lia] ..].
      * intros [[=] | (l' & [= <-] & Hl')]. right. lia.
    + split; [intros [? | ?]; discriminate | intros [[=] | (l' & [=] & _)]].
  - apply process_failure.
  - intros Htrue. rewrite (process_success q Htrue). simpl.
    split; [reflexivity |].
    rewrite Hok in Htrue. apply andb_true_iff in Htrue as [_ Hl].
    apply list_schema_accepts in Hq as (_ & (_ & Hlimit) & _).
    destruct q.(limit) as [s|]; [| reflexivity]. simpl in *.
    rewrite (parsed_digits s Hlimit).
    apply andb_true_iff in Hl as [?%Z.leb_le ?%Z.leb_le].
    rewrite to_double_exact by (apply Z.abs_lt; unfold MAX_SAFE; lia).
    apply take_of_valid. lia.
Qed.

(** [?page=007&limit=100] passes; [?page=00] falls back. *)
Lemma validated_list_fallback_witness :
  parseResult_success
    {| page := Some "007"; limit := Some "100"; name := None; description := None |}
  = true
  /\ processLikesQueryParams
       {| page := Some "00"; limit := None; name := Some "a"; description := None |}
     = {| where_ := ∅; skip := Fin 0; take := Fin 10 |}.
Proof.
  split.
  - reflexivity.
  - destruct (validated_list_fallback
                [("page", "00"); ("name", "a")]
                {| page := Some "00"; limit := None; name := Some "a";
                   description := None |} eq_refl) as (Hiff & Hfall & _).
    + intros s [= <-]. reflexivity.
    + apply Hfall, Hiff. left. reflexivity.
Defined.

(** ** List route, end to end *)

Lemma listHandler_calls (e : entity) (db : storage) (q : ListQuery) :
  (listHandler e db q).1 =
    [FindMany e (processLikesQueryParams q).(where_)
       (processLikesQueryParams q).(skip) (processLikesQueryParams q).(take);
     Count e (processLikesQueryParams q).(where_)].
Proof.
  unfold listHandler. destruct (Promise_all _ _) as [[items n]|err]; reflexivity.
Qed.

Lemma Promise_all_resolved {A B : Type} (a : outcome A) (b : outcome B) :
  (exists x y, Promise_all a b = Resolved (x, y)) <->
  (exists x, a = Resolved x) /\ (exists y, b = Resolved y).
Proof.
  destruct a as [x|err], b as [y|err']; simpl; split;
    first [ intros (? & ? & [=]); fail
          | intros [(? & [=]) (? & [=])]; fail
          | intros _; eauto ].
Qed.

(** X5: a list request is answered 400 without a storage call when the
    schema refuses the query string. Otherwise [findMany] and [count]
    are each called once, with the same filter, an offset that is a
    natural number and a page size from 1 to 100; the answer is 200
    when both resolve and 500 when one of them throws. *)
Theorem list_route_outcomes (e : entity) (db : storage) (qs : query_string) :
  (likesQuerySchema qs = None ->
     listRoute e db qs = ([], {| status := 400; json := Invalid |}))
  /\ (forall q, likesQuerySchema qs = Some q ->
        exists w s t,
          (listRoute e db qs).1 = [FindMany e w (Fin s) (Fin t); Count e w]
          /\ 0 <= s /\ 1 <= t <= 100
          /\ ((listRoute e db qs).2.(status) = 200
              \/ (listRoute e db qs).2.(status) = 500)
          /\ ((listRoute e db qs).2.(status) = 200 <->
                (exists items, db.(findMany) e w (Fin s) (Fin t) = Resolved items)
                /\ (exists n, db.(count) e w = Resolved n))).
Proof.
  unfold listRoute, validations_of. cbn [querySchema likes_validations].
  split; [intros ->; reflexivity |].
  intros q ->. unfold zValidator.
  destruct (process_range q) as (s & t & Hs & Ht & Hs0 & Htr).
  exists (processLikesQueryParams q).(where_), s, t.
  rewrite listHandler_calls, Hs, Ht.
  split; [reflexivity |]. split; [exact Hs0 |]. split; [exact Htr |].
  rewrite <- Promise_all_resolved.
  unfold listHandler, validations_of. cbn [processQueryParams likes_validations].
  rewrite Hs, Ht.
  destruct (Promise_all _ _) as [[items n]|err]; simpl.
  - split; [left; reflexivity |]. split; [eauto | reflexivity].
  - split; [right; reflexivity |].
    split; [discriminate | intros (? & ? & [=])].
Qed.

(** The decimal reading of a validated field below 2^53. *)
Lemma parsed_default (given : option string) (d : Z) :
  from_option (fun s => digit_string s = true) True given ->
  0 <= d -> default d (decimal <$> given) < MAX_SAFE ->
  default (Fin d) (parsed given) = Fin (default d (decimal <$> given)).
Proof.
  intros Hdigits Hd Hsmall. destruct given as [s|]; [| reflexivity].
  simpl in *. rewrite (parsed_digits s Hdigits). simpl.
  apply to_double_exact, Z.abs_lt. pose proof (decimal_nonneg s). lia.
Qed.

(** X6: the page a list request asks for is the page its envelope reports:
    for a page [p >= 1] and a limit [l] in [1,100] (1 and 10 when
    absent, the offset below 2^53) the storage is asked for [l] rows
    from offset [(p - 1) * l], and [meta.page], computed back from
    [skip] and [take], is [p]. *)
Theorem list_page_round_trip (e : entity) (db : storage) (qs : query_string)
    (q : ListQuery) (items : list row) (total : number) :
  likesQuerySchema qs = Some q ->
  let p := default 1 (decimal <$> q.(page)) in
  let l := default 10 (decimal <$> q.(limit)) in
  1 <= p -> 1 <= l <= 100 -> (p - 1) * l < MAX_SAFE - 1 ->
  db.(findMany) e (filters_of q) (Fin ((p - 1) * l)) (Fin l) = Resolved items ->
  db.(count) e (filters_of q) = Resolved total ->
  listRoute e db qs =
    ([FindMany e (filters_of q) (Fin ((p - 1) * l)) (Fin l);
      Count e (filters_of q)],
     {| status := 200;
        json := Envelope items
          {| total := total;
             meta_skip := Fin ((p - 1) * l);
             meta_take := Fin l;
             meta_page := Fin p;
             totalPages := Math_ceil (total / Fin l)%js |} |}).
Proof.
  intros Hq p l Hp Hl Hs Hfind Hcount.
  pose proof Hq as ((_ & Hpage) & (_ & Hlimit) & _)%list_schema_accepts.
  assert (Hpsafe : p < MAX_SAFE) by nia.
  assert (Hpg : default (Fin 1) (parsed q.(page)) = Fin p)
    by (apply parsed_default; [exact Hpage | lia | exact Hpsafe]).
  assert (Hlim : default (Fin 10) (parsed q.(limit)) = Fin l)
    by (apply parsed_default; [exact Hlimit | lia | unfold MAX_SAFE; fold l; lia]).
  destruct (pagination_valid q p l Hpg Hlim Hp Hl ltac:(lia)) as (Hok & Ht & Hsk).
  pose proof (process_success q Hok) as Hproc. rewrite Ht, Hsk in Hproc.
  unfold listRoute, validations_of. cbn [querySchema likes_validations].
  rewrite Hq. unfold zValidator, listHandler, validations_of.
  cbn [processQueryParams likes_validations]. rewrite Hproc.
  cbn [where_ skip take]. rewrite Hfind, Hcount. cbn [Promise_all].
  rewrite Math_floor_div by (unfold MAX_SAFE in *; nia).
  rewrite Z.div_mul by lia.
  unfold num_add. rewrite to_double_exact by (apply Z.abs_lt; lia).
  repeat f_equal. lia.
Qed.

(** [?page=3&limit=20] on the likes: rows 40 to 59, reported as page 3
    of 2. *)
Lemma list_page_round_trip_witness :
  (listRoute Likes storage_of_25 [("page", "3"); ("limit", "20")]).2
  = {| status := 200;
       json := Envelope []
         {| total := Fin 25; meta_skip := Fin 40; meta_take := Fin 20;
            meta_page := Fin 3; totalPages := Fin 2 |} |}.
Proof.
  rewrite (list_page_round_trip Likes storage_of_25
             [("page", "3"); ("limit", "20")]
             {| page := Some "3"; limit := Some "20";
                name := None; description := None |}
             [] (Fin 25) eq_refl); try reflexivity.
  all: cbv zeta; repeat split; vm_compute; first [reflexivity | discriminate].
Defined.

(** ** Search route, further *)

(** The product of a natural number or +Infinity with a page size is
    not negative. *)
Lemma offset_nonneg (page : number) (t : Z) :
  1 <= t ->
  (exists v, page = Fin v /\ 1 <= v) \/ page = PosInf ->
  ((page - Fin 1) * Fin t <? Fin 0)%js = false
  /\ ((page - Fin 1) * Fin t)%js <> NaN.
Proof.
  intros Ht [(v & -> & Hv) | ->].
  - unfold num_sub.
    destruct (to_double_nonneg (v - 1) ltac:(lia)) as [(w & -> & Hw) | ->].
    + unfold num_mul.
      destruct (to_double_nonneg (w * t) ltac:(nia)) as [(x & -> & Hx) | ->].
      * split; [apply Z.ltb_ge; lia | discriminate].
      * split; [reflexivity | discriminate].
    + destruct t as [|t|t]; try lia. split; [reflexivity | discriminate].
  - destruct t as [|t|t]; try lia. split; [reflexivity | discriminate].
Qed.

Lemma search_schema_page (qs : query_string) (q : SearchQuery) :
  likesSearchQuerySchema qs = Some q ->
  from_option (fun s => digit_string s = true) True q.(search_page).
Proof. intros (_ & (_ & H) & _)%search_schema_accepts. exact H. Qed.

(** X7: on a search that passed the schema the offset handed to [findMany]
    is negative exactly when the page is zero, written with any number
    of digits; it is never NaN, and the page size is an integer from 1
    to 100. *)
Theorem search_skip_sign (e : entity) (db : storage) (qs : query_string)
    (q : SearchQuery) :
  likesSearchQuerySchema qs = Some q ->
  exists sk t,
    (searchRoute e db qs).1 =
      [FindMany e (searchWhere e q.(query)) sk (Fin t);
       Count e (searchWhere e q.(query))]
    /\ 1 <= t <= 100
    /\ sk <> NaN
    /\ ((sk <? Fin 0)%js = true <-> decimal <$> q.(search_page) = Some 0).
Proof.
  intros Hq.
  destruct (search_take_range qs q Hq) as (t & Ht & Hr).
  pose proof (search_schema_page qs q Hq) as Hpage.
  exists (searchPagination q).1.2, t.
  unfold searchRoute, zValidator, validations_of.
  cbn [searchQuerySchema likes_validations].
  rewrite Hq, searchHandler_calls, Ht.
  split; [reflexivity |]. split; [exact Hr |].
  unfold searchPagination in *. cbn [fst snd] in *. rewrite Ht.
  destruct q.(search_page) as [s|]; simpl in Hpage.
  - rewrite (parsed_digits s Hpage). cbn [default from_option id fmap option_fmap option_map].
    pose proof (decimal_nonneg s) as H0.
    destruct (Z.eq_dec (decimal s) 0) as [Hz|Hnz].
    + rewrite Hz. change (to_double 0) with (Fin 0).
      rewrite offset_exact by (unfold MAX_SAFE; lia).
      split; [discriminate |]. split; [reflexivity |].
      intros _. apply Z.ltb_lt. lia.
    + destruct (offset_nonneg (to_double (decimal s)) t ltac:(lia)) as [Hlt Hnan].
      { destruct (to_double_ge (decimal s) 1 H0 ltac:(lia) ltac:(lia))
          as [(v & Hv & Hv1) | Hinf]; [left; eauto | right; exact Hinf]. }
      split; [exact Hnan |]. rewrite Hlt.
      split; [discriminate | intros [= Hd]; contradiction].
  - cbn [parsed truthy_string default from_option id].
    rewrite offset_exact by (unfold MAX_SAFE; lia).
    split; [discriminate |]. split; [| discriminate].
    intros H%Z.ltb_lt. lia.
Qed.

(** [?query=a&page=00] asks for offset -10, [?query=a&page=01] for 0. *)
Lemma search_skip_sign_witness :
  (searchRoute Hashtags empty_storage [("query", "a"); ("page", "00")]).1
  = [FindMany Hashtags (searchWhere Hashtags "a") (Fin (-10)) (Fin 10);
     Count Hashtags (searchWhere Hashtags "a")]
  /\ exists sk t,
       (searchRoute Hashtags empty_storage [("query", "a"); ("page", "01")]).1
       = [FindMany Hashtags (searchWhere Hashtags "a") sk (Fin t);
          Count Hashtags (searchWhere Hashtags "a")]
       /\ (sk <? Fin 0)%js <> true.
Proof.
  split; [reflexivity |].
  destruct (search_skip_sign Hashtags empty_storage
              [("query", "a"); ("page", "01")]
              {| query := "a"; search_page := Some "01"; search_limit := None |}
              eq_refl) as (sk & t & Hcalls & _ & _ & Hiff).
  exists sk, t. split; [exact Hcalls |].
  intros H. apply Hiff in H. discriminate H.
Defined.

(** X8: the search of the likes does not read the query: two searches with
    the same page and limit make the same storage calls and get the same
    answer. The searches of the other entities hand the query to the
    storage, so that different queries make different calls. *)
Theorem likes_search_ignores_query (db : storage) (q q' : SearchQuery) :
  q.(search_page) = q'.(search_page) ->
  q.(search_limit) = q'.(search_limit) ->
  searchHandler Likes db q = searchHandler Likes db q'
  /\ (forall e, e <> Likes -> q.(query) <> q'.(query) ->
        (searchHandler e db q).1 <> (searchHandler e db q').1).
Proof.
  intros Hp Hl. split.
  - unfold searchHandler, searchPagination. rewrite Hp, Hl. reflexivity.
  - intros e He Hne. rewrite !searchHandler_calls. intros [= Hw _ _ _].
    apply Hne.
    assert (Hor : forall column,
              ({["OR" := Or [ {[column := StartsWith q.(query) "insensitive"]} ]]}
                 : where_clause)
              = {["OR" := Or [ {[column := StartsWith q'.(query) "insensitive"]} ]]}
              -> q.(query) = q'.(query)).
    { intros column H.
      apply (f_equal (fun w : where_clause =>
                        match w !! "OR" with
                        | Some (Or [alternative]) => alternative !! column
                        | _ => None
                        end)) in H.
      rewrite !lookup_singleton_eq in H. congruence. }
    destruct e; [apply (Hor "content") | contradiction
                | apply (Hor "content") | apply (Hor "name")]; exact Hw.
Qed.

(** [?query=alice] and [?query=bob] on the likes. *)
Lemma likes_search_ignores_query_witness :
  searchHandler Likes storage_of_25
    {| query := "alice"; search_page := Some "2"; search_limit := None |}
  = searchHandler Likes storage_of_25
      {| query := "bob"; search_page := Some "2"; search_limit := None |}.
Proof.
  apply (likes_search_ignores_query storage_of_25
           {| query := "alice"; search_page := Some "2"; search_limit := None |}
           {| query := "bob"; search_page := Some "2"; search_limit := None |});
    reflexivity.
Defined.

(** ** Routing, further *)

Lemma dispatch_table_get_segment (e : entity) (x : string) :
  x <> "" -> dispatch (router e) GET [x] = Some (GetById, {["id" := x]}).
Proof.
  intros Hx. unfold dispatch, matching, router. cbn.
  repeat case_bool_decide; cbn; try reflexivity; congruence.
Qed.

Lemma dispatch_two_segments (e : entity) (m : method) (x y : string)
    (path : list string) :
  dispatch (router e) m (x :: y :: path) = None.
Proof.
  unfold dispatch, matching, router.
  destruct m; cbn; repeat case_bool_decide; reflexivity.
Qed.

(** X9: which route of an entity's router answers a request of one
    of the methods it registers (GET, POST, PUT, DELETE): the list and
    the creation at the root, get, update and delete at a single segment
    that is not empty, and no route for any other of these methods and
    paths; the search route answers none. *)
Theorem dispatch_table (e : entity) (m : method) (path : list string) :
  dispatch (router e) m path =
    match path with
    | [] =>
        match m with
        | GET => Some (List, ∅)
        | POST => Some (Create, ∅)
        | PUT | DELETE => None
        end
    | [x] =>
        if bool_decide (x = "") then None
        else match m with
             | GET => Some (GetById, {["id" := x]})
             | PUT => Some (Update, {["id" := x]})
             | DELETE => Some (Delete, {["id" := x]})
             | POST => None
             end
    | _ :: _ :: _ => None
    end.
Proof.
  unfold dispatch, matching, router.
  destruct m, path as [|x [|y path]]; cbn; try reflexivity;
    repeat case_bool_decide; cbn; try reflexivity; congruence.
Qed.

(** X10: a GET of a single segment that is not empty is a get by id with the
    segment as the id, whatever it is: the schema of the parameter
    refuses nothing, [findUnique] is called once with the segment, and
    the answer is 200 or 404. A GET of any other path but the root is
    answered 404 without a storage call. *)
Theorem get_by_id_any_segment (e : entity) (db : storage) (qs : query_string) :
  (forall x, x <> "" ->
     serve_get e db [x] qs = getByIdHandler e db x
     /\ (serve_get e db [x] qs).1 = [FindUnique e x]
     /\ ((serve_get e db [x] qs).2.(status) = 200
         \/ (serve_get e db [x] qs).2.(status) = 404))
  /\ (forall path, path <> [] -> (forall x, x <> "" -> path <> [x]) ->
        serve_get e db path qs =
          ([], {| status := 404; json := Text "404 Not Found" |})).
Proof.
  split.
  - intros x Hx.
    assert (Hserve : serve_get e db [x] qs = getByIdHandler e db x).
    { unfold serve_get. rewrite dispatch_table_get_segment by exact Hx.
      unfold getByIdRoute. rewrite lookup_singleton_eq. reflexivity. }
    rewrite Hserve. split; [reflexivity |]. apply getByIdHandler_status.
  - intros path Hne Hseg. unfold serve_get.
    destruct path as [|x [|y path]]; [contradiction | |].
    + destruct (decide (x = "")) as [->|Hx]; [reflexivity |].
      exfalso. exact (Hseg x Hx eq_refl).
    + rewrite dispatch_two_segments. reflexivity.
Qed.

(** X11: every storage call of a GET request to an entity's router reads the
    table of that entity, and a request makes two calls at most. *)
Theorem serve_get_own_table (e : entity) (db : storage) (path : list string)
    (qs : query_string) :
  Forall (fun c => call_entity c = e) (serve_get e db path qs).1
  /\ (length (serve_get e db path qs).1 <= 2)%nat.
Proof.
  destruct path as [|x [|y path]].
  - change (serve_get e db [] qs) with (listRoute e db qs).
    unfold listRoute, zValidator, validations_of.
    cbn [querySchema likes_validations].
    destruct (likesQuerySchema qs) as [q|]; [| split; [constructor | simpl; lia]].
    rewrite listHandler_calls. split; [repeat constructor | simpl; lia].
  - destruct (decide (x = "")) as [->|Hx].
    + split; [constructor | simpl; lia].
    + unfold serve_get. rewrite dispatch_table_get_segment by exact Hx.
      unfold getByIdRoute. rewrite lookup_singleton_eq.
      cbn [mbind option_bind validations_of idParamSchema likes_validations
             likesIdParamSchema zValidator].
      destruct (getByIdHandler_status e db x) as [-> _].
      split; [repeat constructor | simpl; lia].
  - unfold serve_get. rewrite dispatch_two_segments.
    split; [constructor | simpl; lia].
Qed.

(** ** Router aggregator *)

Lemma mounts_other (prefix : string) :
  prefix ∉ ["users"; "posts"; "likes"; "comments"; "followers"; "hashtags"] ->
  filter (fun m : string * mounted => m.1 = prefix) mounts = [].
Proof.
  intros H. unfold mounts.
  repeat (rewrite filter_cons_False;
          [| simpl; intros <-; apply H; set_solver]).
  reflexivity.
Qed.

(** X12: the aggregated router sends a path to the router mounted under its
    first segment, with the rest of the path; [/healthz] answers 200
    with a fixed text, without a storage call and whatever the query
    string; the root and every other first segment are answered 404. *)
Theorem routes_get_mounts (usersRoute followersRoute : sub_app) (db : storage)
    (qs : query_string) :
  routes_get usersRoute followersRoute db ["healthz"] qs
    = ([], {| status := 200; json := Text "Health OK" |})
  /\ (forall e rest,
        routes_get usersRoute followersRoute db (entity_name e :: rest) qs
        = serve_get e db rest qs)
  /\ (forall rest,
        routes_get usersRoute followersRoute db ("users" :: rest) qs
        = usersRoute db rest qs)
  /\ (forall rest,
        routes_get usersRoute followersRoute db ("followers" :: rest) qs
        = followersRoute db rest qs)
  /\ routes_get usersRoute followersRoute db [] qs
       = ([], {| status := 404; json := Text "404 Not Found" |})
  /\ (forall prefix rest,
        prefix ∉ ["users"; "posts"; "likes"; "comments"; "followers"; "hashtags"] ->
        prefix :: rest <> ["healthz"] ->
        routes_get usersRoute followersRoute db (prefix :: rest) qs
        = ([], {| status := 404; json := Text "404 Not Found" |})).
Proof.
  split; [reflexivity |]. split; [intros [] rest; reflexivity |].
  split; [reflexivity |]. split; [reflexivity |]. split; [reflexivity |].
  intros prefix rest Hprefix Hhealth. unfold routes_get.
  rewrite (mounts_other prefix Hprefix). simpl.
  rewrite bool_decide_eq_false_2 by exact Hhealth. reflexivity.
Qed.

(** ** Create handler *)

(** X13: a creation calls the storage once with the validated payload and
    answers 201 with the record when the call resolves, 409 with the
    target of the violated constraint, and not the error's message, when
    the thrown value has the code P2002, and 500 with the message for
    every other thrown value; a body the schema refuses is answered 400
    before any storage call. *)
Theorem create_outcomes {D T : Type} (e : entity)
    (create : D -> row + write_error T) (data : D) :
  (createHandler e create data).1 = [data]
  /\ (forall item, create data = inl item ->
        (createHandler e create data).2 =
          {| create_status := 201; create_json := Created item |})
  /\ (forall err, create data = inr err ->
        (err.(error_code) = Some "P2002" ->
           (createHandler e create data).2 =
             {| create_status := 409;
                create_json := Conflict ("Could not create " ++ entity_name e)
                                 err.(error_meta_target) |})
        /\ (err.(error_code) <> Some "P2002" ->
           (createHandler e create data).2 =
             {| create_status := 500;
                create_json :=
                  NotCreated ("Failed to create " ++ entity_name e)
                    (details_of err.(as_thrown) "An unknown error occurred") |}))
  /\ ((createHandler e create data).2.(create_status) = 409 <->
        exists err, create data = inr err /\ err.(error_code) = Some "P2002")
  /\ createRoute e create None
       = ([], {| create_status := 400; create_json := InvalidBody |})
  /\ createRoute e create (Some data) = createHandler e create data.
Proof.
  split.
  { unfold createHandler. destruct (create data); [reflexivity |].
    case_bool_decide; reflexivity. }
  split.
  { intros item H. unfold createHandler. rewrite H. reflexivity. }
  split.
  { intros err H. unfold createHandler. rewrite H. split; intros Hcode.
    - rewrite bool_decide_eq_true_2 by exact Hcode. reflexivity.
    - rewrite bool_decide_eq_false_2 by exact Hcode. reflexivity. }
  split; [| split; reflexivity].
  unfold createHandler. destruct (create data) as [item|err].
  - split; [discriminate | intros (err & [=] & _)].
  - case_bool_decide as Hcode; simpl.
    + split; [eauto | reflexivity].
    + split; [discriminate | intros (err' & [= <-] & H); contradiction].
Qed.



(** ** Identifiers in bodies and answers *)

Lemma digit_not_space (c : ascii) : is_digit c = true -> is_space c = false.
Proof.
  intros Hc%is_digit_code. unfold is_space.
  apply orb_false_iff; split; [apply andb_false_iff; right |]; lia.
Qed.

Lemma digit_in_decimal (c : ascii) :
  is_digit c = true -> digit_in 10 c = Some (code c - 48).
Proof.
  intros Hc. unfold digit_in. rewrite Hc. simpl.
  apply is_digit_code in Hc.
  destruct (Z.ltb_spec (code c - 48) 10); [reflexivity | lia].
Qed.

Lemma digits_in_decimal (s : string) (acc : Z) (n : nat) :
  all_digits s = true -> digits_in 10 acc s = Some (digits_prefix acc n s).1.
Proof.
  revert acc n. induction s as [|c s IH]; intros acc n; simpl; [reflexivity |].
  intros [Hc Hs]%andb_true_iff.
  rewrite (digit_in_decimal c Hc), Hc. simpl. apply IH, Hs.
Qed.

(** A string that starts with a character below 128 that is not white
    space is not blank, and keeps this character at its end's trim. *)
Lemma blank_byte (c : ascii) (s : string) :
  is_space c = false -> code c < 192 -> blank (String c s) = false.
Proof.
  intros Hc Hcode. apply blank_none; [discriminate |].
  apply starts_with_space_byte; assumption.
Qed.

Lemma trim_end_cons (c : ascii) (s : string) :
  blank (String c s) = false ->
  trim_end (String c s) = String c (trim_end s).
Proof.
  intros H.
  change (trim_end (String c s))
    with (if blank (String c s) then "" else String c (trim_end s)).
  rewrite H. reflexivity.
Qed.

Lemma trim_end_digits (s : string) : all_digits s = true -> trim_end s = s.
Proof.
  induction s as [|c s IH]; [reflexivity |].
  intros [Hc Hs]%andb_true_iff.
  rewrite trim_end_cons, (IH Hs); [reflexivity |].
  apply blank_byte; [apply digit_not_space, Hc |].
  apply is_digit_code in Hc. lia.
Qed.

Lemma StringToBigInt_digits (s : string) :
  digit_string s = true -> StringToBigInt s = Some (decimal s).
Proof.
  destruct s as [|c s]; [discriminate |]. intros Hs.
  pose proof Hs as [Hc Hrest]%andb_true_iff.
  unfold StringToBigInt.
  rewrite (proj1 (digit_first c s Hc)), (trim_end_digits _ Hs).
  transitivity (integer_in 10 (String c s)).
  - destruct s as [|c' s].
    + destruct c as [[] [] [] [] [] [] [] []];
        first [discriminate Hc | reflexivity].
    + simpl in Hrest. apply andb_true_iff in Hrest as [Hc' _].
      destruct c as [[] [] [] [] [] [] [] []];
        first [discriminate Hc | reflexivity | idtac].
      destruct c' as [[] [] [] [] [] [] [] []];
        first [discriminate Hc' | reflexivity].
  - unfold integer_in, decimal. apply digits_in_decimal, Hs.
Qed.

Lemma uint_all_digits (d : Decimal.uint) :
  all_digits (DecimalString.NilEmpty.string_of_uint d) = true.
Proof. induction d; simpl; [reflexivity | exact IHd ..]. Qed.

Lemma uint_digits_acc (d : Decimal.uint) (acc : positive) (n : nat) :
  (digits_prefix (Z.pos acc) n (DecimalString.NilEmpty.string_of_uint d)).1
  = Z.pos (Pos.of_uint_acc d acc).
Proof.
  revert acc n. induction d; intros acc n; [reflexivity | ..];
    cbn [DecimalString.NilEmpty.string_of_uint digits_prefix Pos.of_uint_acc];
    change (is_digit _) with true; cbv iota;
    match goal with
    | |- (digits_prefix ?a _ _).1 = Z.pos (Pos.of_uint_acc _ ?b) =>
        replace a with (Z.pos b) by (unfold code; simpl; lia)
    end; apply IHd.
Qed.

Lemma uint_digits (d : Decimal.uint) (n : nat) :
  (digits_prefix 0 n (DecimalString.NilEmpty.string_of_uint d)).1
  = Z.of_N (Pos.of_uint d).
Proof.
  revert n. induction d; intros n; [reflexivity | apply IHd | ..];
    cbn [DecimalString.NilEmpty.string_of_uint digits_prefix Pos.of_uint];
    change (is_digit _) with true; cbv iota;
    apply (uint_digits_acc d _ (S n)).
Qed.

(** The decimal text of a positive integer: digits, one at least, that
    read back as the integer. *)
Lemma positive_text (p : positive) :
  let s := DecimalString.NilZero.string_of_uint (Pos.to_uint p) in
  digit_string s = true /\ decimal s = Z.pos p.
Proof.
  pose proof (DecimalPos.Unsigned.of_to p) as Hof.
  destruct (Pos.to_uint p) as [| d | d | d | d | d | d | d | d | d | d] eqn:Hd;
    [discriminate Hof | ..];
    (split;
     [ apply (uint_all_digits (Decimal.D1 d))
     | unfold decimal;
       change (DecimalString.NilZero.string_of_uint ?u)
         with (DecimalString.NilEmpty.string_of_uint u);
       rewrite uint_digits, Hof; reflexivity ]).
Qed.

Lemma toJSON_reads_back (z : Z) : StringToBigInt (toJSON z) = Some z.
Proof.
  destruct z as [|p|p]; [reflexivity | ..]; unfold toJSON; simpl Z.to_int;
    destruct (positive_text p) as [Hs Hv].
  - simpl DecimalString.NilZero.string_of_int.
    rewrite (StringToBigInt_digits _ Hs), Hv. reflexivity.
  - cbn [DecimalString.NilZero.string_of_int].
    set (s := DecimalString.NilZero.string_of_uint (Pos.to_uint p)) in *.
    destruct s as [|c s]; [discriminate |].
    unfold StringToBigInt.
    rewrite (trim_start_none (String "-" (String c s)))
      by (apply starts_with_space_byte; reflexivity).
    rewrite (trim_end_cons "-") by (apply blank_byte; reflexivity).
    rewrite (trim_end_digits _ Hs). unfold integer_in.
    rewrite (digits_in_decimal _ 0 0%nat Hs).
    fold (decimal (String c s)). rewrite Hv. reflexivity.
Qed.

(** The white space a string starts with, one character at a time. *)
Lemma space_ind (P : string -> Prop) :
  P "" ->
  (forall c s, is_space c = true -> P s -> P (String c s)) ->
  (forall c1 c2 s, is_space c1 = false -> is_space2 c1 c2 = true ->
     P s -> P (String c1 (String c2 s))) ->
  (forall c1 c2 c3 s, is_space c1 = false -> is_space2 c1 c2 = false ->
     is_space3 c1 c2 c3 = true -> P s ->
     P (String c1 (String c2 (String c3 s)))) ->
  (forall s, s <> "" -> starts_with_space s = false -> P s) ->
  forall s, P s.
Proof.
  intros H0 H1 H2 H3 H4 s.
  assert (H : forall n s, (String.length s <= n)%nat -> P s);
    [| apply (H (String.length s)); lia].
  clear s. induction n as [|n IH]; intros s Hn.
  { destruct s; [exact H0 | simpl in Hn; lia]. }
  destruct s as [|c1 s1]; [exact H0 |]. simpl in Hn.
  destruct (is_space c1) eqn:E1; [apply H1; [exact E1 | apply IH; lia] |].
  destruct s1 as [|c2 s2];
    [apply H4; [discriminate | simpl; rewrite E1; reflexivity] |].
  simpl in Hn.
  destruct (is_space2 c1 c2) eqn:E2;
    [apply H2; [exact E1 | exact E2 | apply IH; lia] |].
  destruct s2 as [|c3 s3];
    [apply H4; [discriminate | simpl; rewrite E1, E2; reflexivity] |].
  simpl in Hn.
  destruct (is_space3 c1 c2 c3) eqn:E3;
    [apply H3; [exact E1 | exact E2 | exact E3 | apply IH; lia] |].
  apply H4; [discriminate | simpl; rewrite E1, E2, E3; reflexivity].
Qed.

Lemma trim_start_space (c1 c2 c3 : ascii) (s : string) :
  (is_space c1 = true -> trim_start (String c1 s) = trim_start s)
  /\ (is_space c1 = false -> is_space2 c1 c2 = true ->
      trim_start (String c1 (String c2 s)) = trim_start s)
  /\ (is_space c1 = false -> is_space2 c1 c2 = false ->
      is_space3 c1 c2 c3 = true ->
      trim_start (String c1 (String c2 (String c3 s))) = trim_start s).
Proof.
  split; [| split]; simpl.
  - intros ->. reflexivity.
  - intros -> ->. reflexivity.
  - intros -> -> ->. reflexivity.
Qed.

Lemma blank_space (c1 c2 c3 : ascii) (s : string) :
  (is_space c1 = true -> blank (String c1 s) = blank s)
  /\ (is_space c1 = false -> is_space2 c1 c2 = true ->
      blank (String c1 (String c2 s)) = blank s)
  /\ (is_space c1 = false -> is_space2 c1 c2 = false ->
      is_space3 c1 c2 c3 = true ->
      blank (String c1 (String c2 (String c3 s))) = blank s).
Proof.
  split; [| split]; simpl.
  - intros ->. reflexivity.
  - intros -> ->. reflexivity.
  - intros -> -> ->. reflexivity.
Qed.

(** A blank string starts with a byte below 128 or from 192 on. *)
Lemma blank_first_byte (c : ascii) (s : string) :
  blank (String c s) = true -> code c < 128 \/ 192 <= code c.
Proof.
  simpl. destruct (is_space c) eqn:E1; [apply is_space_byte in E1; lia |].
  destruct s as [|c2 s]; [discriminate |].
  destruct (is_space2 c c2) eqn:E2; [apply is_space2_bytes in E2; lia |].
  destruct s as [|c3 s]; [discriminate |].
  intros [E3 _]%andb_true_iff. apply is_space3_bytes in E3. lia.
Qed.

(** White space after a string that starts with none does not make it
    start with one. *)
Lemma starts_with_space_app (s pad : string) :
  s <> "" -> starts_with_space s = false -> blank pad = true ->
  starts_with_space (s ++ pad) = false.
Proof.
  intros Hne Hs Hpad.
  assert (Hfirst : forall c r, pad = String c r -> code c < 128 \/ 192 <= code c).
  { intros c r ->. apply (blank_first_byte c r Hpad). }
  destruct s as [|c1 [|c2 [|c3 s]]]; [congruence | ..].
  - change (String c1 "" ++ pad) with (String c1 pad).
    simpl in Hs. rewrite orb_false_r in Hs. simpl. rewrite Hs.
    destruct pad as [|q1 [|q2 pad]]; [reflexivity | ..];
      specialize (Hfirst q1 _ eq_refl);
      rewrite ?is_space2_false, ?is_space3_false by lia; reflexivity.
  - change (String c1 (String c2 "") ++ pad) with (String c1 (String c2 pad)).
    simpl in Hs. rewrite orb_false_r in Hs.
    apply orb_false_iff in Hs as [Hs1 Hs2]. simpl. rewrite Hs1, Hs2.
    destruct pad as [|q1 pad]; [reflexivity |].
    specialize (Hfirst q1 _ eq_refl).
    rewrite is_space3_false by lia. reflexivity.
  - exact Hs.
Qed.

Lemma trim_start_blank (pad s : string) :
  blank pad = true -> trim_start (pad ++ s) = trim_start s.
Proof.
  induction pad as [| c pad E1 IH | c1 c2 pad E1 E2 IH
                    | c1 c2 c3 pad E1 E2 E3 IH | pad Hne Hnone] using space_ind.
  - reflexivity.
  - rewrite (proj1 (blank_space c c c pad) E1).
    change (String c pad ++ s) with (String c (pad ++ s)).
    rewrite (proj1 (trim_start_space c c c (pad ++ s)) E1). exact IH.
  - rewrite (proj1 (proj2 (blank_space c1 c2 c2 pad)) E1 E2).
    change (String c1 (String c2 pad) ++ s) with (String c1 (String c2 (pad ++ s))).
    rewrite (proj1 (proj2 (trim_start_space c1 c2 c2 (pad ++ s))) E1 E2).
    exact IH.
  - rewrite (proj2 (proj2 (blank_space c1 c2 c3 pad)) E1 E2 E3).
    change (String c1 (String c2 (String c3 pad)) ++ s)
      with (String c1 (String c2 (String c3 (pad ++ s)))).
    rewrite (proj2 (proj2 (trim_start_space c1 c2 c3 (pad ++ s))) E1 E2 E3).
    exact IH.
  - rewrite (blank_none pad Hne Hnone). discriminate.
Qed.

Lemma trim_start_only_blank (pad : string) :
  blank pad = true -> trim_start pad = "".
Proof.
  induction pad as [| c pad E1 IH | c1 c2 pad E1 E2 IH
                    | c1 c2 c3 pad E1 E2 E3 IH | pad Hne Hnone] using space_ind.
  - reflexivity.
  - rewrite (proj1 (blank_space c c c pad) E1),
      (proj1 (trim_start_space c c c pad) E1). exact IH.
  - rewrite (proj1 (proj2 (blank_space c1 c2 c2 pad)) E1 E2),
      (proj1 (proj2 (trim_start_space c1 c2 c2 pad)) E1 E2). exact IH.
  - rewrite (proj2 (proj2 (blank_space c1 c2 c3 pad)) E1 E2 E3),
      (proj2 (proj2 (trim_start_space c1 c2 c3 pad)) E1 E2 E3). exact IH.
  - rewrite (blank_none pad Hne Hnone). discriminate.
Qed.

(** White space after a string does not make it blank. *)
Lemma blank_app (s pad : string) :
  blank pad = true -> blank (s ++ pad) = blank s.
Proof.
  intros Hpad.
  induction s as [| c s E1 IH | c1 c2 s E1 E2 IH
                  | c1 c2 c3 s E1 E2 E3 IH | s Hne Hnone] using space_ind.
  - exact Hpad.
  - change (String c s ++ pad) with (String c (s ++ pad)).
    rewrite (proj1 (blank_space c c c s) E1),
      (proj1 (blank_space c c c (s ++ pad)) E1). exact IH.
  - change (String c1 (String c2 s) ++ pad) with (String c1 (String c2 (s ++ pad))).
    rewrite (proj1 (proj2 (blank_space c1 c2 c2 s)) E1 E2),
      (proj1 (proj2 (blank_space c1 c2 c2 (s ++ pad))) E1 E2). exact IH.
  - change (String c1 (String c2 (String c3 s)) ++ pad)
      with (String c1 (String c2 (String c3 (s ++ pad)))).
    rewrite (proj2 (proj2 (blank_space c1 c2 c3 s)) E1 E2 E3),
      (proj2 (proj2 (blank_space c1 c2 c3 (s ++ pad))) E1 E2 E3). exact IH.
  - rewrite (blank_none s Hne Hnone). apply blank_none.
    + destruct s; [congruence | discriminate].
    + apply starts_with_space_app; assumption.
Qed.

Lemma trim_end_blank (pad : string) : blank pad = true -> trim_end pad = "".
Proof.
  intros Hpad. destruct pad as [|c pad]; [reflexivity |].
  change (trim_end (String c pad))
    with (if blank (String c pad) then "" else String c (trim_end pad)).
  rewrite Hpad. reflexivity.
Qed.

Lemma trim_end_app_blank (s pad : string) :
  blank pad = true -> trim_end (s ++ pad) = trim_end s.
Proof.
  intros Hpad. induction s as [|c s IH].
  - apply trim_end_blank, Hpad.
  - change (String c s ++ pad) with (String c (s ++ pad)).
    change (trim_end (String c (s ++ pad)))
      with (if blank (String c (s ++ pad)) then ""
            else String c (trim_end (s ++ pad))).
    change (trim_end (String c s))
      with (if blank (String c s) then "" else String c (trim_end s)).
    change (String c (s ++ pad)) with (String c s ++ pad) at 1.
    rewrite (blank_app (String c s) pad Hpad), IH. reflexivity.
Qed.

Lemma trim_app_blank (s pad : string) :
  blank pad = true ->
  trim_end (trim_start (s ++ pad)) = trim_end (trim_start s).
Proof.
  intros Hpad.
  induction s as [| c s E1 IH | c1 c2 s E1 E2 IH
                  | c1 c2 c3 s E1 E2 E3 IH | s Hne Hnone] using space_ind.
  - change ("" ++ pad) with pad.
    rewrite (trim_start_only_blank pad Hpad). reflexivity.
  - change (String c s ++ pad) with (String c (s ++ pad)).
    rewrite (proj1 (trim_start_space c c c s) E1),
      (proj1 (trim_start_space c c c (s ++ pad)) E1). exact IH.
  - change (String c1 (String c2 s) ++ pad) with (String c1 (String c2 (s ++ pad))).
    rewrite (proj1 (proj2 (trim_start_space c1 c2 c2 s)) E1 E2),
      (proj1 (proj2 (trim_start_space c1 c2 c2 (s ++ pad))) E1 E2). exact IH.
  - change (String c1 (String c2 (String c3 s)) ++ pad)
      with (String c1 (String c2 (String c3 (s ++ pad)))).
    rewrite (proj2 (proj2 (trim_start_space c1 c2 c3 s)) E1 E2 E3),
      (proj2 (proj2 (trim_start_space c1 c2 c3 (s ++ pad))) E1 E2 E3). exact IH.
  - rewrite (trim_start_none s Hnone),
      (trim_start_none (s ++ pad) (starts_with_space_app s pad Hne Hnone Hpad)).
    apply trim_end_app_blank, Hpad.
Qed.

Lemma StringToBigInt_padded (pad s pad' : string) :
  blank pad = true -> blank pad' = true ->
  StringToBigInt (pad ++ s ++ pad') = StringToBigInt s.
Proof.
  intros Hpad Hpad'. unfold StringToBigInt.
  rewrite (trim_start_blank pad _ Hpad), (trim_app_blank s pad' Hpad').
  reflexivity.
Qed.

Lemma field_named (fields : list (string * json_value)) (k : string) :
  k = "userId" \/ k = "postId" ->
  field (filter named fields) k = field fields k.
Proof.
  intros Hk. unfold field. rewrite list_filter_filter_l; [reflexivity |].
  intros [k' v] Hk'. unfold named. simpl in *. subst k'. exact Hk.
Qed.

Lemma field_of_two_ids (a b : json_value) :
  field [("userId", a); ("postId", b)] "userId" = Some a
  /\ field [("userId", a); ("postId", b)] "postId" = Some b.
Proof. split; vm_compute; reflexivity. Qed.

Lemma schema_of_two_ids (a b : json_value) (u p : Z) :
  BigInt a = Some u -> BigInt b = Some p ->
  createLikesSchema (JObject [("userId", a); ("postId", b)])
  = Some {| userId := u; postId := p |}.
Proof.
  intros Ha Hb. unfold createLikesSchema, z_coerce_bigint.
  destruct (field_of_two_ids a b) as [-> ->].
  cbn [mbind option_bind]. rewrite Ha, Hb. reflexivity.
Qed.

(** X14: an identifier served is accepted back. The answers carry a
    BigInt as the decimal text [toJSON] gives; [BigInt] reads that text
    back as the same integer, whatever its sign and size, so a body
    built of a user id and a post id as they were served passes
    createLikesSchema with these two ids. A JSON number that is an
    integer is taken as it is. *)
Theorem served_ids_are_accepted (u p : Z) :
  BigInt (JString (toJSON u)) = Some u
  /\ BigInt (JInteger u) = Some u
  /\ createLikesSchema
       (JObject [("userId", JString (toJSON u)); ("postId", JString (toJSON p))])
     = Some {| userId := u; postId := p |}
  /\ updateLikesSchema
       (JObject [("userId", JString (toJSON u)); ("postId", JString (toJSON p))])
     = Some {| userId := u; postId := p |}.
Proof.
  assert (Hboth :
    createLikesSchema
      (JObject [("userId", JString (toJSON u)); ("postId", JString (toJSON p))])
    = Some {| userId := u; postId := p |}).
  { apply schema_of_two_ids; apply toJSON_reads_back. }
  repeat split; [apply toJSON_reads_back | exact Hboth | exact Hboth].
Qed.

(** X15: white space around an identifier does not count, and an
    identifier of white space only is 0. White space is JavaScript's:
    tab, line feed, vertical tab, form feed, carriage return, space,
    and U+00A0, U+1680, U+2000 to U+200A, U+2028, U+2029, U+202F,
    U+205F, U+3000 and U+FEFF. For a text between two runs of white
    space [BigInt] answers as for the text alone, be it accepted or
    refused; the empty string and a blank one convert to 0, so that a
    creation body whose two ids are blank strings is accepted with both
    ids 0. *)
Theorem blank_ids_are_zero (pad s pad' : string) :
  blank pad = true -> blank pad' = true ->
  BigInt (JString (pad ++ s ++ pad')) = BigInt (JString s)
  /\ BigInt (JString pad) = Some 0
  /\ createLikesSchema
       (JObject [("userId", JString pad); ("postId", JString pad')])
     = Some {| userId := 0; postId := 0 |}.
Proof.
  intros Hpad Hpad'.
  assert (Hzero : forall b, blank b = true -> StringToBigInt b = Some 0).
  { intros b Hb. unfold StringToBigInt.
    rewrite (trim_start_only_blank b Hb). reflexivity. }
  split; [apply StringToBigInt_padded; assumption |].
  split; [apply Hzero, Hpad |].
  apply schema_of_two_ids; apply Hzero; assumption.
Qed.

(** A no-break space before 5 and a space and a line separator after
    it: 5; a no-break space alone: 0. *)
Lemma blank_ids_are_zero_witness :
  blank no_break_space = true /\ blank (" " ++ line_separator) = true
  /\ BigInt (JString (no_break_space ++ "5" ++ " " ++ line_separator)) = Some 5
  /\ BigInt (JString no_break_space) = Some 0.
Proof.
  split; [reflexivity |]. split; [reflexivity |].
  destruct (blank_ids_are_zero no_break_space "5" (" " ++ line_separator)
              eq_refl eq_refl) as (H1 & H2 & _).
  split; [rewrite H1; reflexivity | exact H2].
Defined.

(** X16: an identifier of digits is read exactly in a body, and as a
    double in a query. For a string of digits [BigInt] gives its decimal
    value, whatever its length and leading zeros, where [parseInt], which
    reads the page and the limit, gives that value rounded to a double:
    the two agree below 2^53. *)
Theorem digit_ids_are_exact (s : string) :
  digit_string s = true ->
  BigInt (JString s) = Some (decimal s)
  /\ parseInt s = to_double (decimal s)
  /\ (decimal s < MAX_SAFE -> parseInt s = Fin (decimal s)).
Proof.
  intros Hs. split; [apply StringToBigInt_digits, Hs |].
  split; [apply parseInt_digits, Hs |].
  intros Hsafe. rewrite (parseInt_digits s Hs).
  apply to_double_exact. pose proof (decimal_nonneg s). lia.
Qed.

Lemma digit_ids_are_exact_witness :
  digit_string "0090071992547409930" = true
  /\ BigInt (JString "0090071992547409930") = Some 90071992547409930
  /\ parseInt "0090071992547409930" = Fin 90071992547409936.
Proof.
  split; [reflexivity |].
  destruct (digit_ids_are_exact "0090071992547409930" eq_refl) as (H1 & H2 & _).
  split; [exact H1 | rewrite H2; reflexivity].
Defined.

(** X17: a creation reads the two fields its schema names and nothing
    else. Two bodies whose fields [userId] and [postId] are the same, in
    the same order, are parsed alike by createLikesSchema, whatever
    other fields they carry and wherever these stand: no field of a
    body reaches the storage but the two ids. A body that is not an
    object, or that lacks an id or gives [null] for it, is refused. *)
Theorem create_reads_named_fields (fields fields' : list (string * json_value)) :
  filter named fields = filter named fields' ->
  createLikesSchema (JObject fields) = createLikesSchema (JObject fields')
  /\ (field fields "userId" = None \/ field fields "userId" = Some JNull
      \/ field fields "postId" = None \/ field fields "postId" = Some JNull ->
      createLikesSchema (JObject fields) = None)
  /\ (forall body, (forall l, body <> JObject l) -> createLikesSchema body = None).
Proof.
  intros Hsame. split; [| split].
  - unfold createLikesSchema.
    rewrite <- (field_named fields "userId"), <- (field_named fields "postId"),
      <- (field_named fields' "userId"), <- (field_named fields' "postId"),
      Hsame by (first [left; reflexivity | right; reflexivity]).
    reflexivity.
  - unfold createLikesSchema, z_coerce_bigint.
    intros [-> | [-> | [H | H]]]; [reflexivity | reflexivity | ..];
      rewrite H; destruct (field fields "userId" ≫= BigInt); reflexivity.
  - intros body Hbody. destruct body; try reflexivity.
    exfalso. eapply Hbody. reflexivity.
Qed.

Lemma create_reads_named_fields_witness :
  createLikesSchema
    (JObject [("id", JInteger 9); ("userId", JInteger 1); ("postId", JString "2")])
  = createLikesSchema (JObject [("userId", JInteger 1); ("postId", JString "2")]).
Proof.
  apply (create_reads_named_fields
           [("id", JInteger 9); ("userId", JInteger 1); ("postId", JString "2")]
           [("userId", JInteger 1); ("postId", JString "2")]).
  reflexivity.
Defined.
